(** * SOJ [file_transfer/docker.go]: the container service

    A shallow embedding of [DockerService] and of its methods [RunImage],
    [CleanContainer], [GetContainerIP], [ExecContainer] and
    [GetContainerLogs], together with the parts of the Go standard library
    and of the Docker client library they rest on.

    The Docker daemon is outside the program: it is a record of operations
    over an abstract world [W], and every theorem quantifies over it.  What
    the service does to the daemon is recorded in a trace of calls, what it
    writes through zerolog in a list of log events. *)

From Stdlib Require Import ZArith List String Ascii Bool Lia.
From Stdlib Require Import Strings.Byte DecimalString.
Import ListNotations.

Local Open Scope string_scope.
Local Open Scope Z_scope.
Local Open Scope list_scope.

(** ** Go values *)

(** A Go [error] value that is not nil; [option error] is the interface
    value, [None] being [nil]. *)
Record error : Type := Err { err_msg : string }.

(** Go's [int] and [int64] on the 64-bit targets the service is built for. *)
Definition wrap64 (z : Z) : Z :=
  (z + 2 ^ 63) mod 2 ^ 64 - 2 ^ 63.

(** [context.Context]: the two ways docker.go builds one.  The duration of
    [WithTimeout] is in nanoseconds, as [time.Duration] is. *)
Inductive context : Type :=
| Background
| WithTimeout (parent : context) (d : Z).

Definition Second : Z := 1000000000.

(** [time.Duration(timeout) * time.Second], an int64 product. *)
Definition Duration_seconds (timeout : Z) : Z := wrap64 (timeout * Second).

(** What a function that may dereference a nil pointer yields. *)
Inductive outcome (A : Type) : Type :=
| Returned (a : A)
| Panicked (reason : string).
Arguments Returned {A} a.
Arguments Panicked {A} reason.

(** ** Docker API types (the fields docker.go sets or reads) *)

Record Mount : Type := {
  mount_Type : string;
  mount_Source : string;
  mount_Target : string;
  mount_ReadOnly : bool
}.

(** [container.Config] *)
Record Config : Type := {
  Image : string;
  User : string;
  Hostname : string;
  WorkingDir : string;
  NetworkDisabled : bool;
  Env : list string;
  StopTimeout : option Z
}.

Record Ulimit : Type := {
  ulimit_Name : string;
  ulimit_Soft : Z;
  ulimit_Hard : Z
}.

Record Resources : Type := { Ulimits : list Ulimit }.

(** [container.HostConfig] *)
Record HostConfig : Type := {
  MaskedPaths : list string;
  Mounts : list Mount;
  ReadonlyRootfs : bool;
  AutoRemove : bool;
  NetworkMode : string;
  host_Resources : Resources
}.

(** [*network.NetworkingConfig] and [*ocispec.Platform]: docker.go only
    ever passes nil for them. *)
Inductive NetworkingConfig : Type := mkNetworkingConfig.
Inductive Platform : Type := mkPlatform.

Record CreateResponse : Type := { create_ID : string }.

(** [container.StartOptions{}] *)
Inductive StartOptions : Type := mkStartOptions.

(** [container.StopOptions] *)
Record StopOptions : Type := { stop_Timeout : option Z }.

Record NetworkSettings : Type := { IPAddress : string }.

(** [container.InspectResponse]; [NetworkSettings] is a pointer field. *)
Record InspectResponse : Type := {
  inspect_NetworkSettings : option NetworkSettings
}.

(** [container.ExecOptions] *)
Record ExecOptions : Type := {
  AttachStdout : bool;
  AttachStderr : bool;
  Cmd : list string;
  exec_Env : list string;
  Privileged : bool
}.

Record ExecCreateResponse : Type := { exec_ID : string }.

(** [container.ExecStartOptions{}] *)
Inductive ExecStartOptions : Type := mkExecStartOptions.

Record ExecInspect : Type := { ExitCode : Z }.

(** [container.LogsOptions] *)
Record LogsOptions : Type := {
  ShowStdout : bool;
  ShowStderr : bool
}.

(** ** Readers and writers ([io.Reader], [io.Writer]) *)

(** The error half of a [Read] result: nil, [io.EOF], or another error. *)
Inductive read_err : Type :=
| RNil
| REOF
| RErr (e : error).

Class Reader (T : Type) : Type :=
  Read : Z -> T -> (list byte * read_err) * T.

Class Writer (T : Type) : Type :=
  Write : list byte -> T -> (Z * option error) * T.

Definition len {A : Type} (l : list A) : Z := Z.of_nat (List.length l).

(** A stream handed out by the daemon (the reader of a hijacked connection,
    a log stream).  The daemon delivers its bytes in [chunks]: one [Read]
    yields bytes of the first pending chunk only, at most as many as the
    caller's slice holds.  After the last chunk every [Read] yields [final]:
    [io.EOF] when it is [None], that error otherwise. *)
Record Stream : Type := {
  chunks : list (list byte);
  final : option error
}.

Definition final_err (s : Stream) : read_err :=
  match final s with
  | None => REOF
  | Some e => RErr e
  end.

#[export] Instance Stream_Read : Reader Stream := fun cap s =>
  match chunks s with
  | [] => (([], final_err s), s)
  | c :: cs =>
      if len c <=? cap
      then ((c, RNil), {| chunks := cs; final := final s |})
      else ((firstn (Z.to_nat cap) c, RNil),
            {| chunks := skipn (Z.to_nat cap) c :: cs; final := final s |})
  end.

(** [bytes.Buffer]: its contents.  [Write] appends and never fails. *)
Definition Buffer : Type := list byte.

#[export] Instance Buffer_Write : Writer Buffer := fun p b =>
  ((len p, None), b ++ p).

(** [buf.String()]: a Go string is its bytes. *)
Definition Buffer_String (b : Buffer) : string := string_of_list_byte b.

(** A caller-supplied [io.Writer]: the [Write] calls it has received so far,
    oldest first, and how it answers the next one (bytes accepted, error)
    given those it has seen. *)
Record Sink : Type := {
  sink_writes : list (list byte);
  sink_reply : list (list byte) -> list byte -> Z * option error
}.

#[export] Instance Sink_Write : Writer Sink := fun p k =>
  (sink_reply k (sink_writes k) p,
   {| sink_writes := sink_writes k ++ [p]; sink_reply := sink_reply k |}).

(** [io.TeeReader(r, w)]
<<
    n, err = t.r.Read(p)
    if n > 0 {
        if n, err := t.w.Write(p[:n]); err != nil { return n, err }
    }
    return
>> *)
Record teeReader (R Wt : Type) : Type := TeeReader {
  tee_r : R;
  tee_w : Wt
}.
Arguments TeeReader {R Wt} tee_r tee_w.
Arguments tee_r {R Wt} t.
Arguments tee_w {R Wt} t.

#[export] Instance teeReader_Read {R Wt : Type} `{Reader R} `{Writer Wt}
  : Reader (teeReader R Wt) := fun cap t =>
  let '((bs, er), r') := Read cap (tee_r t) in
  if 0 <? len bs then
    let '((n, werr), w') := Write bs (tee_w t) in
    match werr with
    | Some e => ((firstn (Z.to_nat n) bs, RErr e), TeeReader r' w')
    | None => ((bs, er), TeeReader r' w')
    end
  else ((bs, er), TeeReader r' (tee_w t)).

(** [io.Copy(dst, src)] for a [bytes.Buffer] destination: reads [src] until
    [io.EOF] or an error, appending what each [Read] yields; the error
    returned is nil on [io.EOF]. *)
Definition io_Copy (dst : Buffer) (src : Stream)
  : (Z * option error) * (Buffer * Stream) :=
  let data := List.concat (chunks src) in
  ((len data, final src),
   (dst ++ data, {| chunks := []; final := final src |})).

(** [io.ReadAll(r)]: the bytes read until [io.EOF] or an error. *)
Definition io_ReadAll (r : Stream) : (list byte * option error) * Stream :=
  ((List.concat (chunks r), final r), {| chunks := []; final := final r |}).

(** ** [stdcopy.StdCopy] (github.com/docker/docker/pkg/stdcopy)

    The daemon multiplexes the standard streams of a session without a TTY
    onto one connection, in frames: an 8-byte header, whose first byte names
    the stream and whose last four bytes hold the payload size in big
    endian, then the payload. *)

Definition stdWriterPrefixLen : Z := 8.
Definition stdWriterFdIndex : nat := 0.
Definition stdWriterSizeIndex : nat := 4.
Definition startingBufLen : Z := 32 * 1024 + stdWriterPrefixLen + 1.

Definition Stdin : Z := 0.
Definition Stdout : Z := 1.
Definition Stderr : Z := 2.
Definition Systemerr : Z := 3.

Definition byte_val (b : byte) : Z := Z.of_N (Byte.to_N b).

(** [binary.BigEndian.Uint32(b)] *)
Definition BigEndian_Uint32 (b : list byte) : Z :=
  let at_ i := byte_val (nth i b x00) in
  Z.lor (at_ 3%nat)
    (Z.lor (Z.shiftl (at_ 2%nat) 8)
       (Z.lor (Z.shiftl (at_ 1%nat) 16) (Z.shiftl (at_ 0%nat) 24))).

Definition ErrShortWrite : error := Err "short write".

Definition decimal (z : Z) : string :=
  DecimalString.NilZero.string_of_uint (N.to_uint (Z.to_N z)).

(** How one of the two read loops of [StdCopy] ends. *)
Inductive fill_result (R : Type) : Type :=
| Filled (buf : list byte) (src : R)
| FillShort (buf : list byte) (src : R)
| FillFailed (e : error) (src : R)
| FillFuel.
Arguments Filled {R} buf src.
Arguments FillShort {R} buf src.
Arguments FillFailed {R} e src.
Arguments FillFuel {R}.

(** The writers the caller of [ExecContainer] owns, by address: an
    [io.Writer] argument is an address, and two arguments may hold the same
    one. *)
Definition store : Type := nat -> Sink.

Definition store_Write (p : list byte) (w : nat) (h : store)
  : (Z * option error) * store :=
  let '(res, k) := Write p (h w) in
  (res, fun a => if Nat.eqb a w then k else h a).

Section StdCopy.
Context {R : Type} `{Reader R}.

(** The read loop, with [buf] the bytes [buf[:nr]] read so far:
<<
  for nr < target {
      nr2, er = src.Read(buf[nr:]); nr += nr2
      if er == io.EOF { if nr < target { return written, nil }; break }
      if er != nil { return 0, er }
  }
>> *)
Fixpoint fill (fuel : nat) (target bufLen : Z) (buf : list byte) (src : R)
  : fill_result R :=
  if target <=? len buf then Filled buf src
  else
    match fuel with
    | O => FillFuel
    | S fuel' =>
        let '((bs, er), src') := Read (bufLen - len buf) src in
        let buf' := buf ++ bs in
        match er with
        | REOF =>
            if len buf' <? target then FillShort buf' src'
            else Filled buf' src'
        | RErr e => FillFailed e src'
        | RNil => fill fuel' target bufLen buf' src'
        end
    end.

(** One turn of the outer [for] per frame.  [None]: the fuel ran out. *)
Fixpoint StdCopy_loop (fuel : nat) (buf : list byte) (bufLen written : Z)
  (dstout dsterr : nat) (src : R) (h : store)
  : option ((Z * option error) * (store * R)) :=
  match fuel with
  | O => None
  | S fuel' =>
      match fill fuel' stdWriterPrefixLen bufLen buf src with
      | FillFuel => None
      | FillShort _ src1 => Some ((written, None), (h, src1))
      | FillFailed e src1 => Some ((0, Some e), (h, src1))
      | Filled buf1 src1 =>
          let stream := byte_val (nth stdWriterFdIndex buf1 x00) in
          if Systemerr <? stream then
            Some ((0, Some (Err ("Unrecognized input header: "
                                   ++ decimal stream)%string)),
                  (h, src1))
          else
            let out := if stream =? Stderr then dsterr else dstout in
            let frameSize :=
              BigEndian_Uint32 (firstn 4 (skipn stdWriterSizeIndex buf1)) in
            let bufLen1 :=
              if bufLen <? frameSize + stdWriterPrefixLen
              then bufLen + (frameSize + stdWriterPrefixLen - bufLen + 1)
              else bufLen in
            match fill fuel' (frameSize + stdWriterPrefixLen) bufLen1 buf1 src1 with
            | FillFuel => None
            | FillShort _ src2 => Some ((written, None), (h, src2))
            | FillFailed e src2 => Some ((0, Some e), (h, src2))
            | Filled buf2 src2 =>
                let payload :=
                  firstn (Z.to_nat frameSize)
                    (skipn (Z.to_nat stdWriterPrefixLen) buf2) in
                if stream =? Systemerr then
                  Some ((written,
                         Some (Err ("error from daemon in stream: "
                                      ++ string_of_list_byte payload)%string)),
                        (h, src2))
                else
                  let '((nw, ew), h') := store_Write payload out h in
                  match ew with
                  | Some e => Some ((0, Some e), (h', src2))
                  | None =>
                      if nw =? frameSize then
                        StdCopy_loop fuel'
                          (skipn (Z.to_nat (frameSize + stdWriterPrefixLen)) buf2)
                          bufLen1 (wrap64 (written + nw)) dstout dsterr src2 h'
                      else Some ((0, Some ErrShortWrite), (h', src2))
                  end
            end
      end
  end.

Definition StdCopy (fuel : nat) (dstout dsterr : nat) (src : R) (h : store)
  : option ((Z * option error) * (store * R)) :=
  StdCopy_loop fuel [] startingBufLen 0 dstout dsterr src h.

End StdCopy.

(** Enough fuel for [StdCopy] on a stream: every [Read] but the last takes
    a chunk or a part of one, every frame eight bytes or more. *)
Definition Stream_size (s : Stream) : nat :=
  fold_right (fun c n => S (List.length c + n)) O (chunks s).

Definition StdCopy_fuel (s : Stream) : nat := S (S (Stream_size s)).

(** [StdCopy] on a tee of a daemon stream, which is how [ExecContainer]
    calls it.  The fuel is enough ([StdCopy_fuel_enough] below), so that the
    second branch is never taken. *)
Definition StdCopy_tee (dstout dsterr : nat) (src : teeReader Stream Buffer)
  (h : store) : (Z * option error) * (store * teeReader Stream Buffer) :=
  match StdCopy (StdCopy_fuel (tee_r src)) dstout dsterr src h with
  | Some res => res
  | None => ((0, None), (h, src))
  end.

(** ** The Docker client ([*client.Client]) *)

(** [types.HijackedResponse]: the reader of the hijacked connection, and
    what closing the connection does to the daemon. *)
Record HijackedResponse (W : Type) : Type := {
  hijack_Reader : Stream;
  hijack_Close : W -> W
}.
Arguments hijack_Reader {W} h.
Arguments hijack_Close {W} h w.

(** The methods of the client that docker.go calls.  Each one steps the
    world of the daemon and returns what the Go method returns, the error
    last. *)
Record Client (W : Type) : Type := {
  ContainerCreate :
    context -> Config -> HostConfig -> option NetworkingConfig ->
    option Platform -> string -> W -> (CreateResponse * option error) * W;
  ContainerStart :
    context -> string -> StartOptions -> W -> option error * W;
  ContainerStop :
    context -> string -> StopOptions -> W -> option error * W;
  ContainerInspect :
    context -> string -> W -> (InspectResponse * option error) * W;
  ContainerExecCreate :
    context -> string -> ExecOptions -> W ->
    (ExecCreateResponse * option error) * W;
  ContainerExecAttach :
    context -> string -> ExecStartOptions -> W ->
    (HijackedResponse W * option error) * W;
  ContainerExecInspect :
    context -> string -> W -> (ExecInspect * option error) * W;
  ContainerLogs :
    context -> string -> LogsOptions -> W -> (Stream * option error) * W
}.
Arguments ContainerCreate {W} c.
Arguments ContainerStart {W} c.
Arguments ContainerStop {W} c.
Arguments ContainerInspect {W} c.
Arguments ContainerExecCreate {W} c.
Arguments ContainerExecAttach {W} c.
Arguments ContainerExecInspect {W} c.
Arguments ContainerLogs {W} c.

(** [DockerService] *)
Record DockerService (W : Type) : Type := { client : Client W }.
Arguments client {W} d.

(** What the service asks of the daemon, in the order it asks. *)
Inductive Event : Type :=
| CallContainerCreate (ctx : context) (config : Config)
    (hostConfig : HostConfig) (networkingConfig : option NetworkingConfig)
    (platform : option Platform) (containerName : string)
| CallContainerStart (ctx : context) (id : string) (options : StartOptions)
| CallContainerStop (ctx : context) (id : string) (options : StopOptions)
| CallContainerInspect (ctx : context) (id : string)
| CallContainerExecCreate (ctx : context) (id : string) (options : ExecOptions)
| CallContainerExecAttach (ctx : context) (execID : string)
    (options : ExecStartOptions)
| CallContainerExecInspect (ctx : context) (execID : string)
| CallContainerLogs (ctx : context) (id : string) (options : LogsOptions)
| CallClose
| CallCancel (ctx : context).

(** ** zerolog *)

Inductive Level : Type := DebugLevel | InfoLevel | ErrorLevel.

Record LogEvent : Type := {
  log_level : Level;
  log_error : option error;
  log_fields : list (string * string);
  log_msg : string
}.

(** ** The state the service runs in, and its monad *)

Record St (W : Type) : Type := {
  world : W;
  trace : list Event;
  logs : list LogEvent;
  writers : store
}.
Arguments world {W} s.
Arguments trace {W} s.
Arguments logs {W} s.
Arguments writers {W} s.

Definition M (W A : Type) : Type := St W -> A * St W.

Definition ret {W A : Type} (a : A) : M W A := fun s => (a, s).

Definition bind {W A B : Type} (m : M W A) (f : A -> M W B) : M W B :=
  fun s => let '(a, s') := m s in f a s'.

Declare Scope go_scope.
Delimit Scope go_scope with go.
Notation "x <- c1 ;; c2" := (bind c1 (fun x => c2))
  (at level 61, c1 at next level, right associativity) : go_scope.
Notation "' pat <- c1 ;; c2" := (bind c1 (fun x => let 'pat := x in c2))
  (at level 61, pat pattern, c1 at next level, right associativity) : go_scope.
Notation "c1 ;; c2" := (bind c1 (fun _ => c2))
  (at level 61, right associativity) : go_scope.
Local Open Scope go_scope.

(** ** The parameters [RunImage] creates a container with

    Lines 33-41 of [RunImage] and its two struct literals, lines 43-61:
    [masked] stays the nil slice unless [mask] is set, [network] the empty
    string unless [networkhosted] is, and [StopTimeout] points to the
    [timeout] argument. *)
Definition RunImage_Config (user hostname image workdir : string)
  (networkdisabled : bool) (timeout : Z) (env : list string) : Config :=
  {| Image := image; User := user; Hostname := hostname;
     WorkingDir := workdir; NetworkDisabled := networkdisabled;
     Env := env; StopTimeout := Some timeout |}.

Definition RunImage_HostConfig (mounts : list Mount)
  (mask ReadonlyRootfs networkhosted : bool) : HostConfig :=
  let masked :=
    if mask then
      ["/etc"; "/sys"; "/proc/tty"; "/proc/sys"; "/proc/sysrq-trigger";
       "/proc/cmdline"; "/proc/config.gz"; "/proc/mounts"; "/proc/fs";
       "/proc/device-tree"; "/proc/bus"]
    else [] in
  let network := if networkhosted then "host" else "" in
  {| MaskedPaths := masked; Mounts := mounts;
     ReadonlyRootfs := ReadonlyRootfs; AutoRemove := true;
     NetworkMode := network;
     host_Resources :=
       {| Ulimits := [ {| ulimit_Name := "memlock";
                          ulimit_Soft := -1; ulimit_Hard := -1 |} ] |} |}.

Section Service.
Context {W : Type}.

(** A call of a client method: the event is recorded, the world steps. *)
Definition call {A : Type} (ev : Event) (op : W -> A * W) : M W A :=
  fun s =>
    let '(a, w) := op (world s) in
    (a, {| world := w; trace := trace s ++ [ev];
           logs := logs s; writers := writers s |}).

(** An event with no result: a deferred [Close] or [cancel]. *)
Definition effect (ev : Event) (op : W -> W) : M W unit :=
  call ev (fun w => (tt, op w)).

Definition emit (e : LogEvent) : M W unit :=
  fun s =>
    (tt, {| world := world s; trace := trace s;
            logs := logs s ++ [e]; writers := writers s |}).

(** [log.Err(err). ... .Msg(msg)]: error level, or info level for nil. *)
Definition log_Err (err : option error) (fields : list (string * string))
  (msg : string) : M W unit :=
  emit {| log_level := match err with Some _ => ErrorLevel | None => InfoLevel end;
          log_error := err; log_fields := fields; log_msg := msg |}.

(** [log.Debug(). ... .Msg(msg)] *)
Definition log_Debug (fields : list (string * string)) (msg : string)
  : M W unit :=
  emit {| log_level := DebugLevel; log_error := None;
          log_fields := fields; log_msg := msg |}.

(** The writers of the caller, as a step of the monad. *)
Definition with_writers {A : Type} (f : store -> A * store) : M W A :=
  fun s =>
    let '(a, h) := f (writers s) in
    (a, {| world := world s; trace := trace s;
           logs := logs s; writers := h |}).

Variable ds : DockerService W.

(** [RunImage] *)
Definition RunImage (name user hostname image workdir : string)
  (mounts : list Mount) (mask ReadonlyRootfs networkdisabled : bool)
  (timeout : Z) (networkhosted : bool) (env : list string)
  : M W (bool * string) :=
  let config :=
    RunImage_Config user hostname image workdir networkdisabled timeout env in
  let hostConfig :=
    RunImage_HostConfig mounts mask ReadonlyRootfs networkhosted in
  '(resp, err) <-
    call (CallContainerCreate Background config hostConfig None None name)
      (ContainerCreate (client ds) Background config hostConfig None None name) ;;
  match err with
  | Some _ =>
      log_Err err [("name", name); ("image", image)] "container create error" ;;
      ret (false, "")
  | None =>
      let id := create_ID resp in
      log_Debug [("name", name); ("image", image); ("id", id)] "container created" ;;
      err <- call (CallContainerStart Background id mkStartOptions)
               (ContainerStart (client ds) Background id mkStartOptions) ;;
      match err with
      | Some _ =>
          log_Err err [("name", name); ("image", image); ("id", id)]
            "container start error" ;;
          ret (false, "")
      | None =>
          log_Debug [("name", name); ("image", image); ("id", id)]
            "container started" ;;
          ret (true, id)
      end
  end.

(** [CleanContainer] *)
Definition CleanContainer (id : string) : M W unit :=
  let timeout := 1 in
  let options := {| stop_Timeout := Some timeout |} in
  err <- call (CallContainerStop Background id options)
           (ContainerStop (client ds) Background id options) ;;
  match err with
  | Some _ => log_Err err [("id", id)] "container remove error"
  | None => log_Debug [("id", id)] "container removed"
  end.

(** [GetContainerIP].  [info.NetworkSettings] is a pointer, and
    [info.NetworkSettings.IPAddress] dereferences it. *)
Definition GetContainerIP (id : string) : M W (outcome string) :=
  '(info, err) <- call (CallContainerInspect Background id)
                    (ContainerInspect (client ds) Background id) ;;
  match err with
  | Some _ =>
      log_Err err [("id", id)] "failed to get ip: container inspect error" ;;
      ret (Returned "")
  | None =>
      match inspect_NetworkSettings info with
      | Some settings => ret (Returned (IPAddress settings))
      | None => ret (Panicked "invalid memory address or nil pointer dereference")
      end
  end.

(** [GetContainerLogs] *)
Definition GetContainerLogs (id : string) : M W (string * option error) :=
  let options := {| ShowStdout := true; ShowStderr := true |} in
  '(resp, err) <- call (CallContainerLogs Background id options)
                    (ContainerLogs (client ds) Background id options) ;;
  match err with
  | Some _ =>
      log_Err err [("id", id)] "container logs error" ;;
      ret ("", err)
  | None =>
      let '((res, err), _) := io_ReadAll resp in
      match err with
      | Some _ =>
          log_Err err [("id", id)] "container logs read error" ;;
          ret ("", err)
      | None => ret (string_of_list_byte res, None)
      end
  end.

(** Lines 135-146 of [ExecContainer]: the output of the session goes to
    a fresh [bytes.Buffer], through [StdCopy] and a tee when both writers
    are given, through [io.Copy] otherwise.  An error of the copy is
    logged and dropped. *)
Definition ExecContainer_copy (id execID : string) (stdout stderr : option nat)
  (reader : Stream) : M W Buffer :=
  let buf : Buffer := [] in
  let fields := [("id", id); ("exec_id", execID)] in
  match stdout, stderr with
  | Some out, Some errw =>
      '((_, err), t) <-
        with_writers (fun h =>
          let '(res, (h', t)) := StdCopy_tee out errw (TeeReader reader buf) h in
          ((res, t), h')) ;;
      match err with
      | Some _ => log_Err err fields "container exec copy error" ;; ret (tee_w t)
      | None => ret (tee_w t)
      end
  | _, _ =>
      let '((_, err), (buf', _)) := io_Copy buf reader in
      match err with
      | Some _ => log_Err err fields "container exec copy error" ;; ret buf'
      | None => ret buf'
      end
  end.

(** [ExecContainer].  The two deferred calls run when the function
    returns, [outresp.Close()] before [cancel()]. *)
Definition ExecContainer (id cmd : string) (timeout : Z)
  (stdout stderr : option nat) (env : list string) (privileged : bool)
  : M W (Z * string * option error) :=
  let ctx := WithTimeout Background (Duration_seconds timeout) in
  let options :=
    {| AttachStdout := true; AttachStderr := true;
       Cmd := ["sh"; "-c"; cmd]; exec_Env := env;
       Privileged := privileged |} in
  res <-
    ('(resp, err) <-
       call (CallContainerExecCreate ctx id options)
         (ContainerExecCreate (client ds) ctx id options) ;;
     match err with
     | Some _ =>
         log_Err err [("id", id)] "container exec create error" ;;
         ret (-1, "", err)
     | None =>
         let fields := [("id", id); ("exec_id", exec_ID resp)] in
         log_Debug fields "container exec created" ;;
         '(outresp, err) <-
           call (CallContainerExecAttach ctx (exec_ID resp) mkExecStartOptions)
             (ContainerExecAttach (client ds) ctx (exec_ID resp)
                mkExecStartOptions) ;;
         match err with
         | Some _ =>
             log_Err err fields "container exec attach error" ;;
             ret (-1, "", err)
         | None =>
             res <-
               (log_Debug fields "container exec started" ;;
                buf <- ExecContainer_copy id (exec_ID resp) stdout stderr
                         (hijack_Reader outresp) ;;
                '(inspectResp, err) <-
                  call (CallContainerExecInspect ctx (exec_ID resp))
                    (ContainerExecInspect (client ds) ctx (exec_ID resp)) ;;
                match err with
                | Some _ =>
                    log_Err err fields "container exec inspect error" ;;
                    ret (-1, "", err)
                | None =>
                    ret (ExitCode inspectResp, Buffer_String buf, None)
                end) ;;
             effect CallClose (hijack_Close outresp) ;;
             ret res
         end
     end) ;;
  effect (CallCancel ctx) (fun w => w) ;;
  ret res.

End Service.

(** ** What the theorems observe *)

(** The creation requests of a trace, with their parameters. *)
Fixpoint creations (evs : list Event) : list (Config * HostConfig) :=
  match evs with
  | [] => []
  | CallContainerCreate _ config hostConfig _ _ _ :: evs' =>
      (config, hostConfig) :: creations evs'
  | _ :: evs' => creations evs'
  end.

(** The stop requests of a trace. *)
Fixpoint stops (evs : list Event) : list (context * string * StopOptions) :=
  match evs with
  | [] => []
  | CallContainerStop ctx id options :: evs' => (ctx, id, options) :: stops evs'
  | _ :: evs' => stops evs'
  end.

(** The exit-code inspections of a trace. *)
Fixpoint exec_inspects (evs : list Event) : list (context * string) :=
  match evs with
  | [] => []
  | CallContainerExecInspect ctx execID :: evs' => (ctx, execID) :: exec_inspects evs'
  | _ :: evs' => exec_inspects evs'
  end.

(** The context a client call was made with. *)
Definition event_context (ev : Event) : option context :=
  match ev with
  | CallContainerCreate ctx _ _ _ _ _ => Some ctx
  | CallContainerStart ctx _ _ => Some ctx
  | CallContainerStop ctx _ _ => Some ctx
  | CallContainerInspect ctx _ => Some ctx
  | CallContainerExecCreate ctx _ _ => Some ctx
  | CallContainerExecAttach ctx _ _ => Some ctx
  | CallContainerExecInspect ctx _ => Some ctx
  | CallContainerLogs ctx _ _ => Some ctx
  | CallClose => None
  | CallCancel _ => None
  end.

(** The errors a log holds: the message and the error of each event of
    error level. *)
Definition errors_logged (lg : list LogEvent) : list (string * error) :=
  flat_map
    (fun ev =>
       match log_level ev, log_error ev with
       | ErrorLevel, Some e => [(log_msg ev, e)]
       | _, _ => []
       end)
    lg.

(** A failure as the log shows it: nothing for no error. *)
Definition failure (msg : string) (err : option error) : list (string * error) :=
  match err with
  | Some e => [(msg, e)]
  | None => []
  end.

(** The bytes a stream still holds. *)
Definition pending (s : Stream) : list byte := List.concat (chunks s).

(** A frame as the daemon's [stdWriter] writes it: the stream byte, three
    zero bytes, the size of the payload ([binary.BigEndian.PutUint32]), the
    payload. *)
Record Frame : Type := {
  frame_stream : byte;
  frame_payload : list byte
}.

Definition byte_of_Z (z : Z) : byte :=
  match Byte.of_N (Z.to_N (z mod 256)) with
  | Some b => b
  | None => x00
  end.

Definition PutUint32 (v : Z) : list byte :=
  [byte_of_Z (Z.shiftr v 24); byte_of_Z (Z.shiftr v 16);
   byte_of_Z (Z.shiftr v 8); byte_of_Z v].

Definition encode_frame (f : Frame) : list byte :=
  frame_stream f :: x00 :: x00 :: x00 :: PutUint32 (len (frame_payload f))
    ++ frame_payload f.

Definition encode_frames (fs : list Frame) : list byte :=
  List.concat (map encode_frame fs).

(** Frames the header can describe: the size field has 32 bits. *)
Definition frames_ok (fs : list Frame) : bool :=
  forallb (fun f => len (frame_payload f) <? 2 ^ 32) fs.

(** Frame by frame: the payload of a frame goes, in one [Write], to the
    writer its stream byte selects, and the frames after the first one that
    is not delivered (a daemon error frame, an unknown stream, a writer
    that fails or comes short) are not delivered either. *)
Fixpoint demux (fs : list Frame) (dstout dsterr : nat) (h : store) : store :=
  match fs with
  | [] => h
  | f :: fs' =>
      let stream := byte_val (frame_stream f) in
      if Systemerr <=? stream then h
      else
        let out := if stream =? Stderr then dsterr else dstout in
        let '((nw, ew), h') := store_Write (frame_payload f) out h in
        match ew with
        | Some _ => h'
        | None => if nw =? len (frame_payload f) then demux fs' dstout dsterr h'
                  else h'
        end
  end.

(** Whether [demux] delivers every frame. *)
Fixpoint demux_all (fs : list Frame) (dstout dsterr : nat) (h : store) : bool :=
  match fs with
  | [] => true
  | f :: fs' =>
      let stream := byte_val (frame_stream f) in
      if Systemerr <=? stream then false
      else
        let out := if stream =? Stderr then dsterr else dstout in
        let '((nw, ew), h') := store_Write (frame_payload f) out h in
        match ew with
        | Some _ => false
        | None => if nw =? len (frame_payload f) then demux_all fs' dstout dsterr h'
                  else false
        end
  end.

(** What the copy step of [ExecContainer] comes to, given the two writer
    arguments, the reader of the attached session and the writers of the
    caller: the error of the copy, the contents of the transcript buffer,
    and the writers afterwards. *)
Definition copy_result (stdout stderr : option nat) (reader : Stream)
  (h : store) : option error * Buffer * store :=
  match stdout, stderr with
  | Some out, Some errw =>
      let '((_, err), (h', t)) :=
        StdCopy_tee out errw (TeeReader reader []) h in
      (err, tee_w t, h')
  | _, _ => (final reader, pending reader, h)
  end.

(** The log line of a failed copy. *)
Definition copy_log (id execID : string) (err : option error) : list LogEvent :=
  match err with
  | Some e =>
      [ {| log_level := ErrorLevel; log_error := Some e;
           log_fields := [("id", id); ("exec_id", execID)];
           log_msg := "container exec copy error" |} ]
  | None => []
  end.

(** What a read loop of [StdCopy] has done when it ends, started with
    [buf] read, on a tee of the stream [s] into a buffer holding [w]. *)
Definition fill_post (target : Z) (buf : list byte) (s : Stream) (w : Buffer)
  (r : fill_result (teeReader Stream Buffer)) : Prop :=
  match r with
  | Filled buf' t =>
      exists d,
        buf' = buf ++ d /\ tee_w t = w ++ d
        /\ pending s = d ++ pending (tee_r t)
        /\ final (tee_r t) = final s
        /\ target <= len buf'
        /\ (Stream_size (tee_r t) + List.length d <= Stream_size s)%nat
  | FillShort buf' t =>
      buf' = buf ++ pending s /\ tee_w t = w ++ pending s
      /\ pending (tee_r t) = [] /\ len buf' < target
  | FillFailed e t =>
      tee_w t = w ++ pending s /\ pending (tee_r t) = []
      /\ len (buf ++ pending s) < target
  | FillFuel => False
  end.

(** What [StdCopy] has done when it returns, started with [buf] read, on a
    tee of the stream [s] into a buffer holding [w]: it does return; the
    buffer holds the bytes that left the stream; and when the bytes at hand
    are frames, the writers are as [demux] leaves them, and nothing is left
    in the stream once every frame is delivered. *)
Definition loop_post (buf : list byte) (s : Stream) (w : Buffer)
  (dstout dsterr : nat) (h : store)
  (r : option ((Z * option error) * (store * teeReader Stream Buffer)))
  : Prop :=
  match r with
  | None => False
  | Some (_, (h', t)) =>
      w ++ pending s = tee_w t ++ pending (tee_r t)
      /\ forall fs,
           frames_ok fs = true -> buf ++ pending s = encode_frames fs ->
           h' = demux fs dstout dsterr h
           /\ (demux_all fs dstout dsterr h = true -> pending (tee_r t) = [])
  end.

(** How [StdCopy] may change the writers: the writer at an address keeps
    its way of answering and the writes it had received, in order; it may
    have received more, if it is one of the two destinations. *)
Definition grown (dstout dsterr : nat) (h h' : store) : Prop :=
  forall a,
    sink_reply (h' a) = sink_reply (h a)
    /\ (exists more, sink_writes (h' a) = sink_writes (h a) ++ more)
    /\ (a <> dstout -> a <> dsterr -> h' a = h a).

(** The first bytes of a frame that is not all there: less than a header,
    or the header of a known stream with less payload than it announces. *)
Definition incomplete (tail : list byte) : bool :=
  (len tail <? stdWriterPrefixLen)
  || ((byte_val (nth stdWriterFdIndex tail x00) <=? Systemerr)
      && (len tail
          <? BigEndian_Uint32 (firstn 4 (skipn stdWriterSizeIndex tail))
             + stdWriterPrefixLen)).

(** The payload bytes of a sequence of frames. *)
Definition payload_bytes (fs : list Frame) : Z :=
  fold_right (fun f n => len (frame_payload f) + n) 0 fs.

(** ** A small daemon to run the service against

    Containers are created, started and stopped by identifier; a stopped
    container is gone (they are all created with auto-removal).  A session
    writes [session_output] and exits with [session_exit]. *)
Module Sim.

Record World : Type := {
  created : list string;
  running : list string;
  sessions : list string
}.

Definition empty : World := {| created := []; running := []; sessions := [] |}.

Definition has (id : string) (l : list string) : bool :=
  existsb (String.eqb id) l.

Definition without (id : string) (l : list string) : list string :=
  filter (fun x => negb (String.eqb id x)) l.

Definition no_such (id : string) : option error :=
  Some (Err ("No such container: " ++ id)%string).

Record Script : Type := {
  session_output : Stream;
  session_exit : Z;
  container_logs : Stream;
  container_ip : option NetworkSettings
}.

Definition daemon (sc : Script) : Client World := {|
  ContainerCreate := fun _ config _ _ _ name w =>
    if String.eqb (Image config) "" then
      ({| create_ID := "" |}, Some (Err "invalid reference format"), w)
    else
      let id := ("id-" ++ name)%string in
      ({| create_ID := id |}, None,
       {| created := id :: created w; running := running w;
          sessions := sessions w |});
  ContainerStart := fun _ id _ w =>
    if has id (created w) then
      (None, {| created := without id (created w);
                running := id :: running w; sessions := sessions w |})
    else (no_such id, w);
  ContainerStop := fun _ id _ w =>
    if has id (running w) then
      (None, {| created := created w; running := without id (running w);
                sessions := sessions w |})
    else (no_such id, w);
  ContainerInspect := fun _ id w =>
    if has id (running w) then
      ({| inspect_NetworkSettings := container_ip sc |}, None, w)
    else ({| inspect_NetworkSettings := None |}, no_such id, w);
  ContainerExecCreate := fun _ id _ w =>
    if has id (running w) then
      let eid := ("exec-" ++ id)%string in
      ({| exec_ID := eid |}, None,
       {| created := created w; running := running w;
          sessions := eid :: sessions w |})
    else ({| exec_ID := "" |}, no_such id, w);
  ContainerExecAttach := fun _ eid _ w =>
    if has eid (sessions w) then
      ({| hijack_Reader := session_output sc; hijack_Close := fun w => w |},
       None, w)
    else
      ({| hijack_Reader := {| chunks := []; final := None |};
          hijack_Close := fun w => w |},
       Some (Err "No such exec instance"), w);
  ContainerExecInspect := fun _ eid w =>
    if has eid (sessions w) then
      ({| ExitCode := session_exit sc |}, None, w)
    else ({| ExitCode := 0 |}, Some (Err "No such exec instance"), w);
  ContainerLogs := fun _ id _ w =>
    if has id (running w) then (container_logs sc, None, w)
    else ({| chunks := []; final := None |}, no_such id, w)
|}.

Definition service (sc : Script) : DockerService World :=
  {| client := daemon sc |}.

(** A writer that takes everything. *)
Definition taker : Sink :=
  {| sink_writes := []; sink_reply := fun _ p => (len p, None) |}.

Definition init (w : World) : St World :=
  {| world := w; trace := []; logs := []; writers := fun _ => taker |}.

Definition hello : list byte := list_byte_of_string "hello".
Definition oops : list byte := list_byte_of_string "oops".

Definition frames : list Frame :=
  [ {| frame_stream := x01; frame_payload := hello |};
    {| frame_stream := x02; frame_payload := oops |} ].

(** The two frames, cut into chunks across the headers. *)
Definition output : Stream :=
  {| chunks := [firstn 3 (encode_frames frames);
                firstn 12 (skipn 3 (encode_frames frames));
                skipn 15 (encode_frames frames)];
     final := None |}.

Definition script : Script :=
  {| session_output := output; session_exit := 0;
     container_logs := {| chunks := [hello; oops]; final := None |};
     container_ip := Some {| IPAddress := "172.17.0.2" |} |}.

(** A session whose connection breaks after five bytes, and which exits
    with code 7. *)
Definition broken : Script :=
  {| session_output :=
       {| chunks := [hello]; final := Some (Err "connection reset by peer") |};
     session_exit := 7;
     container_logs := {| chunks := []; final := None |};
     container_ip := None |}.

(** A session whose stream stops inside its second frame: the header
    announces four bytes and two come. *)
Definition cut_output : Stream :=
  {| chunks := [encode_frames (firstn 1 frames);
                firstn 10 (encode_frames (skipn 1 frames))];
     final := None |}.

Definition cut : Script :=
  {| session_output := cut_output; session_exit := 0;
     container_logs := {| chunks := []; final := None |};
     container_ip := None |}.

Definition up : World :=
  {| created := []; running := ["id-box"]; sessions := [] |}.

End Sim.

(** * Properties *)

Lemma creations_app (l l' : list Event) :
  creations (l ++ l') = creations l ++ creations l'.
Proof.
  induction l as [| ev l IH]; simpl; [reflexivity |].
  destruct ev; simpl; rewrite IH; reflexivity.
Qed.

Lemma stops_app (l l' : list Event) : stops (l ++ l') = stops l ++ stops l'.
Proof.
  induction l as [| ev l IH]; simpl; [reflexivity |].
  destruct ev; simpl; rewrite IH; reflexivity.
Qed.

Lemma exec_inspects_app (l l' : list Event) :
  exec_inspects (l ++ l') = exec_inspects l ++ exec_inspects l'.
Proof.
  induction l as [| ev l IH]; simpl; [reflexivity |].
  destruct ev; simpl; rewrite IH; reflexivity.
Qed.

(** Unfolds the monad of the service down to the calls of the client. *)
Ltac run :=
  unfold bind, call, effect, ret, log_Err, log_Debug, emit, with_writers;
  cbn [fst snd world trace logs writers].

Section RunImage_facts.
Context {W : Type} (ds : DockerService W).
Variables (name user hostname image workdir : string) (mounts : list Mount).
Variables (mask ReadonlyRootfs networkdisabled : bool) (timeout : Z).
Variables (networkhosted : bool) (env : list string).

Let config :=
  RunImage_Config user hostname image workdir networkdisabled timeout env.
Let hostConfig :=
  RunImage_HostConfig mounts mask ReadonlyRootfs networkhosted.
Let run_image :=
  RunImage ds name user hostname image workdir mounts mask ReadonlyRootfs
    networkdisabled timeout networkhosted env.

(** Every run of [RunImage] sends one creation request, with the
    parameters built from its arguments. *)
Lemma RunImage_creations (s : St W) :
  creations (trace (snd (run_image s)))
  = creations (trace s) ++ [(config, hostConfig)].
Proof.
  unfold run_image, RunImage. fold config hostConfig. run.
  destruct (ContainerCreate _ _ _ _ _ _ _ _) as [[resp [e |]] w1]; run.
  - rewrite creations_app. reflexivity.
  - destruct (ContainerStart _ _ _ _ _) as [[e |] w2]; run;
      rewrite !creations_app; simpl; rewrite app_nil_r; reflexivity.
Qed.

End RunImage_facts.

(** C4. Whatever the request, [RunImage] sends the daemon one creation
    request; its masked paths are exactly the fixed list of eleven paths
    when [mask] is set, and there are none when it is not. *)
Theorem RunImage_masked_paths {W : Type} (ds : DockerService W)
  (name user hostname image workdir : string) (mounts : list Mount)
  (mask readonly networkdisabled : bool) (timeout : Z)
  (networkhosted : bool) (env : list string) (s : St W) :
  exists config hostConfig,
    creations (trace (snd (RunImage ds name user hostname image workdir mounts
                             mask readonly networkdisabled timeout
                             networkhosted env s)))
    = creations (trace s) ++ [(config, hostConfig)]
    /\ MaskedPaths hostConfig
       = (if mask then
            ["/etc"; "/sys"; "/proc/tty"; "/proc/sys"; "/proc/sysrq-trigger";
             "/proc/cmdline"; "/proc/config.gz"; "/proc/mounts"; "/proc/fs";
             "/proc/device-tree"; "/proc/bus"]
          else [])
    /\ List.length (MaskedPaths hostConfig) = (if mask then 11%nat else 0%nat).
Proof.
  eexists; eexists; split; [apply RunImage_creations |].
  destruct mask; split; reflexivity.
Qed.

(** C6. The network mode of the creation request is ["host"] exactly when
    [networkhosted] is set and the empty (default) mode otherwise, and
    [NetworkDisabled] is the [networkdisabled] argument whatever the network
    mode is: the two switches are set independently. *)
Theorem RunImage_network_mode {W : Type} (ds : DockerService W)
  (name user hostname image workdir : string) (mounts : list Mount)
  (mask readonly networkdisabled : bool) (timeout : Z)
  (networkhosted : bool) (env : list string) (s : St W) :
  exists config hostConfig,
    creations (trace (snd (RunImage ds name user hostname image workdir mounts
                             mask readonly networkdisabled timeout
                             networkhosted env s)))
    = creations (trace s) ++ [(config, hostConfig)]
    /\ (NetworkMode hostConfig = "host" <-> networkhosted = true)
    /\ (NetworkMode hostConfig = "" <-> networkhosted = false)
    /\ NetworkDisabled config = networkdisabled.
Proof.
  eexists; eexists; split; [apply RunImage_creations |].
  destruct networkhosted; simpl; repeat split; intros; congruence.
Qed.

(** C7. The creation request always asks for removal of the container when
    it stops, carries the read-only-root flag of the caller, one ulimit,
    [memlock] with soft and hard limit -1 (unlimited), and the stop timeout
    of the caller as it was given. *)
Theorem RunImage_fixed_parameters {W : Type} (ds : DockerService W)
  (name user hostname image workdir : string) (mounts : list Mount)
  (mask readonly networkdisabled : bool) (timeout : Z)
  (networkhosted : bool) (env : list string) (s : St W) :
  exists config hostConfig,
    creations (trace (snd (RunImage ds name user hostname image workdir mounts
                             mask readonly networkdisabled timeout
                             networkhosted env s)))
    = creations (trace s) ++ [(config, hostConfig)]
    /\ AutoRemove hostConfig = true
    /\ ReadonlyRootfs hostConfig = readonly
    /\ Ulimits (host_Resources hostConfig)
       = [ {| ulimit_Name := "memlock"; ulimit_Soft := -1; ulimit_Hard := -1 |} ]
    /\ StopTimeout config = Some timeout.
Proof.
  eexists; eexists; split; [apply RunImage_creations |].
  simpl. auto.
Qed.

(** C1. [RunImage] returns [true] exactly when the creation call and the
    start call that follows both succeed, and the identifier with it is
    then the one the daemon assigned; when either call fails it returns
    [false] and the empty identifier.  The identifier returned with [true]
    is not empty as long as the daemon assigns none that is: then [true]
    with a non-empty identifier is returned exactly when both calls
    succeed. *)
Theorem RunImage_ok_iff_created_and_started {W : Type} (ds : DockerService W)
  (name user hostname image workdir : string) (mounts : list Mount)
  (mask readonly networkdisabled : bool) (timeout : Z)
  (networkhosted : bool) (env : list string) (s : St W) :
  let create :=
    ContainerCreate (client ds) Background
      (RunImage_Config user hostname image workdir networkdisabled timeout env)
      (RunImage_HostConfig mounts mask readonly networkhosted)
      None None name (world s) in
  let id := create_ID (fst (fst create)) in
  let start :=
    ContainerStart (client ds) Background id mkStartOptions (snd create) in
  let created := snd (fst create) = None in
  let started := fst start = None in
  let res :=
    fst (RunImage ds name user hostname image workdir mounts mask readonly
           networkdisabled timeout networkhosted env s) in
  (fst res = true <-> created /\ started)
  /\ (created -> started -> res = (true, id))
  /\ (~ (created /\ started) -> res = (false, ""))
  /\ ((created -> id <> "") ->
      (fst res = true /\ snd res <> "" <-> created /\ started)).
Proof.
  intros create id start created started res.
  subst res id start created started create.
  unfold RunImage. run.
  destruct (ContainerCreate _ _ _ _ _ _ _ _) as [[resp [e |]] w1]; run.
  - split; [split; [discriminate | intros [Hc _]; discriminate] |].
    split; [discriminate |]. split; [reflexivity |].
    intros _. split; [intros [Hok _] | intros [Hc _]]; discriminate.
  - destruct (ContainerStart _ _ _ _ _) as [[e |] w2]; run.
    + split; [split; [discriminate | intros [_ Hs]; discriminate] |].
      split; [discriminate |]. split; [reflexivity |].
      intros _. split; [intros [Hok _] | intros [_ Hs]]; discriminate.
    + split; [split; auto |]. split; [reflexivity |].
      split; [intros Hn; exfalso; apply Hn; auto |].
      intros Hid. split; auto.
Qed.

Lemma RunImage_ok_iff_created_and_started_witness :
  let res :=
    fst (RunImage (Sim.service Sim.script) "box" "nobody" "box-host" "alpine"
           "/work" [] true true false 3 false [] (Sim.init Sim.empty)) in
  res = (true, "id-box") /\ (fst res = true /\ snd res <> "").
Proof.
  destruct (RunImage_ok_iff_created_and_started (Sim.service Sim.script)
              "box" "nobody" "box-host" "alpine" "/work" [] true true false 3
              false [] (Sim.init Sim.empty))
    as (_ & Hres & _ & Hid).
  split.
  - apply Hres; reflexivity.
  - apply Hid.
    + intros _. vm_compute. discriminate.
    + split; reflexivity.
Defined.

(** With no image the small daemon refuses to create, and nothing is handed
    to the caller. *)
Example RunImage_create_refused :
  fst (RunImage (Sim.service Sim.script) "box" "nobody" "box-host" ""
         "/work" [] true true false 3 false [] (Sim.init Sim.empty))
  = (false, "").
Proof. reflexivity. Qed.

(** ** Cleanup *)

(** What one run of [CleanContainer] does, in one equation. *)
Lemma CleanContainer_run {W : Type} (ds : DockerService W) (id : string)
  (s : St W) :
  CleanContainer ds id s
  = (tt,
     {| world :=
          snd (ContainerStop (client ds) Background id
                 {| stop_Timeout := Some 1 |} (world s));
        trace :=
          trace s
          ++ [CallContainerStop Background id {| stop_Timeout := Some 1 |}];
        logs :=
          logs s
          ++ [ match fst (ContainerStop (client ds) Background id
                            {| stop_Timeout := Some 1 |} (world s)) with
               | Some e =>
                   {| log_level := ErrorLevel; log_error := Some e;
                      log_fields := [("id", id)];
                      log_msg := "container remove error" |}
               | None =>
                   {| log_level := DebugLevel; log_error := None;
                      log_fields := [("id", id)];
                      log_msg := "container removed" |}
               end ];
        writers := writers s |}).
Proof.
  unfold CleanContainer. run.
  destruct (ContainerStop _ _ _ _ _) as [[e |] w1]; reflexivity.
Qed.

(** C8. [CleanContainer] asks the daemon one thing, to stop the container
    with a grace period of one second, and has no error to return: it ends
    the same way whether the stop succeeds or fails, the failure only adding
    an error line to the log.  A second cleanup of the same identifier sends
    the same request again and ends as the first did. *)
Theorem CleanContainer_best_effort {W : Type} (ds : DockerService W)
  (id : string) (s : St W) :
  let request := CallContainerStop Background id {| stop_Timeout := Some 1 |} in
  let stop :=
    ContainerStop (client ds) Background id {| stop_Timeout := Some 1 |}
      (world s) in
  let once := CleanContainer ds id s in
  let twice := CleanContainer ds id (snd once) in
  fst once = tt
  /\ trace (snd once) = trace s ++ [request]
  /\ stops (trace (snd once))
     = stops (trace s) ++ [(Background, id, {| stop_Timeout := Some 1 |})]
  /\ world (snd once) = snd stop
  /\ logs (snd once)
     = logs s
       ++ [ match fst stop with
            | Some e =>
                {| log_level := ErrorLevel; log_error := Some e;
                   log_fields := [("id", id)];
                   log_msg := "container remove error" |}
            | None =>
                {| log_level := DebugLevel; log_error := None;
                   log_fields := [("id", id)];
                   log_msg := "container removed" |}
            end ]
  /\ fst twice = tt
  /\ trace (snd twice) = trace s ++ [request; request]
  /\ stops (trace (snd twice))
     = stops (trace s)
       ++ [ (Background, id, {| stop_Timeout := Some 1 |});
            (Background, id, {| stop_Timeout := Some 1 |}) ].
Proof.
  intros request stop once twice. subst twice once stop request.
  rewrite !CleanContainer_run. cbn [fst snd world trace logs].
  rewrite <- !app_assoc, !stops_app. cbn [app stops].
  repeat (split; [reflexivity |]). reflexivity.
Qed.

(** On the small daemon the second cleanup finds the container gone; the
    refusal goes to the log and nowhere else. *)
Example CleanContainer_twice :
  let once := CleanContainer (Sim.service Sim.script) "id-box" (Sim.init Sim.up) in
  let twice := CleanContainer (Sim.service Sim.script) "id-box" (snd once) in
  Sim.running (world (snd once)) = []
  /\ map log_msg (logs (snd once)) = ["container removed"]
  /\ fst twice = tt
  /\ map log_error (logs (snd twice))
     = [None; Some (Err "No such container: id-box")].
Proof. vm_compute. auto. Qed.

(** ** The inspectors *)

(** C9. When the inspection fails, [GetContainerIP] returns the empty
    string, with nothing to tell the failure by; when the log request
    fails, or the request succeeds and reading the stream fails,
    [GetContainerLogs] returns that error (and the empty string). *)
Theorem inspectors_failure_signalling {W : Type} (ds : DockerService W)
  (id : string) (s : St W) :
  let inspect := ContainerInspect (client ds) Background id (world s) in
  let request :=
    ContainerLogs (client ds) Background id
      {| ShowStdout := true; ShowStderr := true |} (world s) in
  (snd (fst inspect) <> None ->
   fst (GetContainerIP ds id s) = Returned "")
  /\ (snd (fst request) <> None ->
      fst (GetContainerLogs ds id s) = ("", snd (fst request)))
  /\ (snd (fst request) = None -> final (fst (fst request)) <> None ->
      fst (GetContainerLogs ds id s) = ("", final (fst (fst request)))).
Proof.
  intros inspect request. subst inspect request.
  unfold GetContainerIP, GetContainerLogs. run.
  destruct (ContainerInspect _ _ _ _) as [[info [e |]] w1];
    destruct (ContainerLogs _ _ _ _ _) as [[resp [e' |]] w2]; run;
    (split; [| split]); try congruence; try reflexivity;
    unfold io_ReadAll; destruct (final resp); run; congruence.
Qed.

Lemma inspectors_failure_signalling_witness :
  fst (GetContainerIP (Sim.service Sim.script) "id-gone" (Sim.init Sim.up))
  = Returned ""
  /\ fst (GetContainerLogs (Sim.service Sim.script) "id-gone" (Sim.init Sim.up))
     = ("", Some (Err "No such container: id-gone")).
Proof.
  split.
  - apply (inspectors_failure_signalling (Sim.service Sim.script) "id-gone"
             (Sim.init Sim.up)).
    vm_compute. discriminate.
  - apply (inspectors_failure_signalling (Sim.service Sim.script) "id-gone"
             (Sim.init Sim.up)).
    vm_compute. discriminate.
Defined.

(** C10. After a successful inspection [GetContainerIP] dereferences the
    network settings of the answer unguarded: with settings present it
    returns their primary address as the daemon reported it, with a nil
    pointer it panics.  An empty primary address is returned as it is, and
    is then the very value returned when the inspection fails. *)
Theorem GetContainerIP_dereference {W : Type} (ds : DockerService W)
  (id : string) (s : St W) :
  let inspect := ContainerInspect (client ds) Background id (world s) in
  let info := fst (fst inspect) in
  (snd (fst inspect) = None ->
   match inspect_NetworkSettings info with
   | Some settings =>
       fst (GetContainerIP ds id s) = Returned (IPAddress settings)
   | None => exists reason, fst (GetContainerIP ds id s) = Panicked reason
   end)
  /\ (snd (fst inspect) <> None ->
      fst (GetContainerIP ds id s) = Returned "").
Proof.
  intros inspect info. subst info inspect.
  unfold GetContainerIP. run.
  destruct (ContainerInspect _ _ _ _) as [[info [e |]] w1]; run.
  - split; [discriminate | reflexivity].
  - split; [intros _ | congruence].
    destruct (inspect_NetworkSettings info); run; eauto.
Qed.

Lemma GetContainerIP_dereference_witness :
  fst (GetContainerIP (Sim.service Sim.script) "id-box" (Sim.init Sim.up))
  = Returned "172.17.0.2".
Proof.
  apply (GetContainerIP_dereference (Sim.service Sim.script) "id-box"
           (Sim.init Sim.up)).
  reflexivity.
Defined.

(** ** Running a command *)

(** The copy step leaves the daemon and the trace alone. *)
Lemma ExecContainer_copy_run {W : Type} (id execID : string)
  (stdout stderr : option nat) (reader : Stream) (s : St W) :
  ExecContainer_copy id execID stdout stderr reader s
  = (snd (fst (copy_result stdout stderr reader (writers s))),
     {| world := world s; trace := trace s;
        logs := logs s
                ++ copy_log id execID
                     (fst (fst (copy_result stdout stderr reader (writers s))));
        writers := snd (copy_result stdout stderr reader (writers s)) |}).
Proof.
  destruct s as [w tr lg h].
  unfold ExecContainer_copy, copy_result. run.
  destruct stdout as [out |], stderr as [errw |]; cbn [writers];
    try (unfold io_Copy, pending; cbn [chunks final app];
         destruct (final reader); run; cbn [copy_log];
         rewrite ?app_nil_r; reflexivity).
  destruct (StdCopy_tee out errw _ h) as [[n [e |]] [h' t]]; run;
    cbn [copy_log]; rewrite ?app_nil_r; reflexivity.
Qed.

(** C2. [ExecContainer] returns -1 and the error of the call when the
    creation of the session fails, when the attach fails, and when the final
    inspection fails.  Once attached, the inspection is always asked for,
    and the exit code and the error returned are its own, whatever the copy
    of the stream did: an error of the copy is written to the log and
    changes nothing else. *)
Theorem ExecContainer_error_paths {W : Type} (ds : DockerService W)
  (id cmd : string) (timeout : Z) (stdout stderr : option nat)
  (env : list string) (privileged : bool) (s : St W) :
  let ctx := WithTimeout Background (Duration_seconds timeout) in
  let options :=
    {| AttachStdout := true; AttachStderr := true; Cmd := ["sh"; "-c"; cmd];
       exec_Env := env; Privileged := privileged |} in
  let create := ContainerExecCreate (client ds) ctx id options (world s) in
  let execID := exec_ID (fst (fst create)) in
  let attach :=
    ContainerExecAttach (client ds) ctx execID mkExecStartOptions (snd create) in
  let inspect := ContainerExecInspect (client ds) ctx execID (snd attach) in
  let copied :=
    copy_result stdout stderr (hijack_Reader (fst (fst attach))) (writers s) in
  let out := ExecContainer ds id cmd timeout stdout stderr env privileged s in
  (forall e, snd (fst create) = Some e -> fst out = (-1, "", Some e))
  /\ (snd (fst create) = None ->
      forall e, snd (fst attach) = Some e -> fst out = (-1, "", Some e))
  /\ (snd (fst create) = None -> snd (fst attach) = None ->
      exec_inspects (trace (snd out))
      = exec_inspects (trace s) ++ [(ctx, execID)]
      /\ (forall e, snd (fst inspect) = Some e -> fst out = (-1, "", Some e))
      /\ (snd (fst inspect) = None ->
          fst out = (ExitCode (fst (fst inspect)),
                     Buffer_String (snd (fst copied)), None))
      /\ (forall e, fst (fst copied) = Some e ->
          In {| log_level := ErrorLevel; log_error := Some e;
                log_fields := [("id", id); ("exec_id", execID)];
                log_msg := "container exec copy error" |}
             (logs (snd out)))).
Proof.
  intros ctx options create execID attach inspect copied out.
  subst out copied inspect attach execID create.
  unfold ExecContainer. fold ctx options. run.
  destruct (ContainerExecCreate _ _ _ _ _) as [[resp [e |]] w1]; run.
  { split; [intros e' [= ->]; reflexivity |].
    split; intros; discriminate. }
  destruct (ContainerExecAttach _ _ _ _ _) as [[outresp [e |]] w2]; run.
  { split; [intros; discriminate |].
    split; [intros _ e' [= ->]; reflexivity | intros; discriminate]. }
  rewrite ExecContainer_copy_run. cbn [fst snd world trace logs writers].
  destruct (copy_result _ _ _ _) as [[cerr buf] h'].
  cbn [fst snd].
  destruct (ContainerExecInspect _ _ _ _) as [[insp [e |]] w3]; run.
  - split; [intros; discriminate |]. split; [intros; discriminate |].
    intros _ _. split; [| split; [| split]].
    + rewrite !exec_inspects_app. cbn. rewrite !app_nil_r. reflexivity.
    + intros e' [= ->]. reflexivity.
    + intros; discriminate.
    + intros e' ->. cbn [copy_log]. rewrite !in_app_iff. cbn. tauto.
  - split; [intros; discriminate |]. split; [intros; discriminate |].
    intros _ _. split; [| split; [| split]].
    + rewrite !exec_inspects_app. cbn. rewrite !app_nil_r. reflexivity.
    + intros; discriminate.
    + reflexivity.
    + intros e' ->. cbn [copy_log]. rewrite !in_app_iff. cbn. tauto.
Qed.

Lemma ExecContainer_error_paths_witness :
  fst (ExecContainer (Sim.service Sim.broken) "id-box" "cat /dev/zero" 5
         None None [] false (Sim.init Sim.up))
  = (7, "hello", None).
Proof.
  destruct (ExecContainer_error_paths (Sim.service Sim.broken) "id-box"
              "cat /dev/zero" 5 None None [] false (Sim.init Sim.up))
    as (_ & _ & H).
  destruct H as (_ & _ & H & _); [reflexivity | reflexivity |].
  apply H. reflexivity.
Defined.

(** ** The frame header *)

Lemma byte_val_range (b : byte) : 0 <= byte_val b < 256.
Proof.
  unfold byte_val. pose proof (Byte.to_N_bounded b) as Hb.
  lia.
Qed.

Lemma byte_val_of_Z (z : Z) : byte_val (byte_of_Z z) = z mod 256.
Proof.
  unfold byte_val, byte_of_Z.
  pose proof (Z.mod_pos_bound z 256 ltac:(lia)) as Hz.
  destruct (Byte.of_N (Z.to_N (z mod 256))) as [b |] eqn:Hb.
  - apply Byte.to_of_N in Hb. rewrite Hb. lia.
  - apply Byte.of_N_None_iff in Hb. lia.
Qed.

(** Two numbers with no bit in common: [lor] adds them. *)
Lemma lor_disjoint (a c k : Z) :
  0 <= k -> 0 <= a < 2 ^ k -> Z.lor a (c * 2 ^ k) = a + c * 2 ^ k.
Proof.
  intros Hk Ha.
  rewrite <- (Z.add_lor_land a (c * 2 ^ k)).
  assert (Hland : Z.land a (c * 2 ^ k) = 0).
  { apply Z.bits_inj'. intros n Hn.
    rewrite Z.land_spec, Z.bits_0.
    destruct (Z.ltb_spec n k) as [Hlt | Hge].
    - rewrite Z.mul_pow2_bits_low by lia. apply andb_false_r.
    - rewrite <- (Z.mod_small a (2 ^ k)) by lia.
      rewrite Z.mod_pow2_bits_high by lia. reflexivity. }
  rewrite Hland. lia.
Qed.

Lemma BigEndian_PutUint32 (v : Z) :
  0 <= v < 2 ^ 32 -> BigEndian_Uint32 (PutUint32 v) = v.
Proof.
  intros Hv. unfold BigEndian_Uint32, PutUint32. cbn [nth].
  rewrite !byte_val_of_Z, !Z.shiftr_div_pow2, !Z.shiftl_mul_pow2 by lia.
  change (2 ^ 24) with (256 * 256 * 256). change (2 ^ 16) with (256 * 256).
  change (2 ^ 8) with 256.
  rewrite <- !Z.div_div by lia.
  set (q1 := v / 256). set (q2 := q1 / 256). set (q3 := q2 / 256).
  pose proof (Z.div_mod v 256 ltac:(lia)) as E1. fold q1 in E1.
  pose proof (Z.div_mod q1 256 ltac:(lia)) as E2. fold q2 in E2.
  pose proof (Z.div_mod q2 256 ltac:(lia)) as E3. fold q3 in E3.
  pose proof (Z.mod_pos_bound v 256 ltac:(lia)) as B3.
  pose proof (Z.mod_pos_bound q1 256 ltac:(lia)) as B2.
  pose proof (Z.mod_pos_bound q2 256 ltac:(lia)) as B1.
  assert (B0 : 0 <= q3 < 256).
  { subst q3 q2 q1. split.
    - repeat apply Z.div_pos; lia.
    - repeat (apply Z.div_lt_upper_bound; [lia |]). lia. }
  rewrite (Z.mod_small q3 256) by lia.
  set (b3 := v mod 256) in *. set (b2 := q1 mod 256) in *.
  set (b1 := q2 mod 256) in *.
  replace (q3 * (256 * 256 * 256)) with (q3 * 2 ^ 24) by lia.
  rewrite (lor_disjoint (b1 * (256 * 256)) q3 24) by lia.
  replace (b1 * (256 * 256) + q3 * 2 ^ 24)
    with ((b1 + q3 * 256) * 2 ^ 16) by lia.
  rewrite (lor_disjoint (b2 * 256) (b1 + q3 * 256) 16) by lia.
  replace (b2 * 256 + (b1 + q3 * 256) * 2 ^ 16)
    with ((b2 + (b1 + q3 * 256) * 256) * 2 ^ 8) by lia.
  rewrite (lor_disjoint b3 (b2 + (b1 + q3 * 256) * 256) 8) by lia.
  lia.
Qed.

(** ** Reading a daemon stream through a tee *)

Lemma len_app {A : Type} (l l' : list A) : len (l ++ l') = len l + len l'.
Proof. unfold len. rewrite length_app. lia. Qed.

Lemma len_nonneg {A : Type} (l : list A) : 0 <= len l.
Proof. unfold len. lia. Qed.

Lemma len_zero_nil {A : Type} (l : list A) : len l <= 0 -> l = [].
Proof. destruct l; [reflexivity | unfold len; cbn [List.length]; lia]. Qed.

(** A tee over a buffer hands on what the stream yields, and the buffer
    has it too. *)
Lemma tee_Read (cap : Z) (s : Stream) (w : Buffer) :
  Read cap (TeeReader s w)
  = (fst (Read cap s),
     TeeReader (snd (Read cap s)) (w ++ fst (fst (Read cap s)))).
Proof.
  unfold Read at 1, teeReader_Read. cbn [tee_r tee_w].
  destruct (Read cap s) as [[bs er] s']. cbn [fst snd].
  destruct (Z.ltb_spec 0 (len bs)) as [Hpos | Hzero].
  - reflexivity.
  - rewrite (len_zero_nil bs Hzero), app_nil_r. reflexivity.
Qed.

(** One [Read] with room for a byte or more: at the end of the stream it
    yields [final]; before the end it yields bytes of the first chunk, or
    drops an empty first chunk, and the stream is smaller. *)
Lemma Stream_Read_spec (cap : Z) (s : Stream) :
  1 <= cap ->
  pending s = fst (fst (Read cap s)) ++ pending (snd (Read cap s))
  /\ final (snd (Read cap s)) = final s
  /\ (chunks s = [] ->
      fst (fst (Read cap s)) = [] /\ snd (fst (Read cap s)) = final_err s
      /\ pending s = [])
  /\ (chunks s <> [] ->
      snd (fst (Read cap s)) = RNil
      /\ (Stream_size (snd (Read cap s)) < Stream_size s)%nat
      /\ (Stream_size (snd (Read cap s))
          + List.length (fst (fst (Read cap s))) <= Stream_size s)%nat).
Proof.
  intros Hcap. unfold Read, Stream_Read, pending, Stream_size.
  destruct s as [[| c cs] f]; cbn [chunks final fst snd List.concat fold_right].
  - split; [reflexivity |]. split; [reflexivity |].
    split; [intros _; auto | intros Hne; contradiction Hne; reflexivity].
  - destruct (Z.leb_spec (len c) cap) as [Hfit | Hcut];
      cbn [chunks final fst snd List.concat fold_right].
    + split; [reflexivity |]. split; [reflexivity |].
      split; [discriminate | intros _; split; [reflexivity | lia]].
    + split; [rewrite app_assoc, firstn_skipn; reflexivity |].
      split; [reflexivity |].
      split; [discriminate | intros _; split; [reflexivity |]].
      rewrite length_skipn, length_firstn. unfold len in Hcut. lia.
Qed.

(** A read loop with more fuel than the stream is long ends, and the tee
    has put in the buffer exactly the bytes that left the stream. *)
Lemma fill_tee (fuel : nat) :
  forall (target bufLen : Z) (buf : list byte) (s : Stream) (w : Buffer),
    target <= bufLen ->
    (Stream_size s < fuel)%nat ->
    fill_post target buf s w (fill fuel target bufLen buf (TeeReader s w)).
Proof.
  induction fuel as [| fuel IH]; intros target bufLen buf s w Hroom Hfuel;
    [lia |].
  cbn [fill].
  destruct (Z.leb_spec target (len buf)) as [Hdone | Hmore].
  { cbn [fill_post]. exists []. rewrite !app_nil_r. cbn [tee_r tee_w List.length].
    repeat (split; [reflexivity || assumption |]). lia. }
  rewrite tee_Read.
  destruct (Stream_Read_spec (bufLen - len buf) s ltac:(lia))
    as (Hpend & Hfinal & Hend & Hstep).
  destruct (Read (bufLen - len buf) s) as [[bs er] s'] eqn:Hread.
  cbn [fst snd] in *.
  destruct (chunks s) as [| c cs] eqn:Hchunks.
  - destruct Hend as (-> & -> & Hnil); [reflexivity |].
    rewrite !app_nil_r. cbn [app] in Hpend.
    unfold final_err. destruct (final s) as [e |].
    + cbn [fill_post tee_r tee_w]. rewrite Hnil, !app_nil_r.
      split; [reflexivity | split; [congruence | lia]].
    + destruct (Z.ltb_spec (len buf) target); [| lia].
      cbn [fill_post tee_r tee_w]. rewrite Hnil, !app_nil_r.
      split; [reflexivity | split; [reflexivity | split; [congruence | lia]]].
  - destruct Hstep as (-> & Hless & Hsize); [discriminate |].
    specialize (IH target bufLen (buf ++ bs) s' (w ++ bs) Hroom ltac:(lia)).
    match goal with
    | |- fill_post _ _ _ _ ?r =>
        assert (IH' : fill_post target (buf ++ bs) s' (w ++ bs) r) by exact IH;
        clear IH; rename IH' into IH; revert IH;
        destruct r as [buf' t | buf' t | e t |]; cbn [fill_post]; intros IH
    end.
    + destruct IH as (d & -> & Hw & Hp & Hf & Ht & Hs).
      exists (bs ++ d). rewrite !app_assoc, length_app.
      split; [reflexivity |]. split; [exact Hw |].
      split; [rewrite Hpend, Hp, app_assoc; reflexivity |].
      split; [congruence |]. split; [exact Ht | lia].
    + destruct IH as (-> & Hw & Hp & Ht).
      rewrite Hpend, Hw, !app_assoc. auto.
    + destruct IH as (Hw & Hp & Ht).
      rewrite Hpend, Hw, !app_assoc. auto.
    + exact IH.
Qed.

(** ** Frames in the read buffer *)

Lemma BigEndian_Uint32_nonneg (b : list byte) : 0 <= BigEndian_Uint32 b.
Proof.
  unfold BigEndian_Uint32.
  repeat (apply Z.lor_nonneg; split);
    try apply Z.shiftl_nonneg; apply byte_val_range.
Qed.

Lemma len_PutUint32 (v : Z) : len (PutUint32 v) = 4.
Proof. reflexivity. Qed.

Lemma len_encode_frame (f : Frame) :
  len (encode_frame f) = 8 + len (frame_payload f).
Proof.
  unfold encode_frame, len. cbn [List.length app PutUint32]. lia.
Qed.

(** When [a ++ b] and [c ++ d] are the same list and [c] is no longer than
    [a], [a] starts with [c]. *)
Lemma app_eq_prefix {A : Type} (a b c d : list A) :
  a ++ b = c ++ d -> (List.length c <= List.length a)%nat ->
  firstn (List.length c) a = c /\ skipn (List.length c) a ++ b = d.
Proof.
  intros Heq Hlen. split.
  - assert (H1 : firstn (List.length c) (a ++ b) = firstn (List.length c) a).
    { rewrite firstn_app.
      replace (List.length c - List.length a)%nat with 0%nat by lia.
      cbn [firstn]. apply app_nil_r. }
    rewrite <- H1, Heq, firstn_app, firstn_all, Nat.sub_diag.
    cbn [firstn]. apply app_nil_r.
  - assert (H2 : skipn (List.length c) (a ++ b) = skipn (List.length c) a ++ b).
    { rewrite skipn_app.
      replace (List.length c - List.length a)%nat with 0%nat by lia.
      reflexivity. }
    rewrite <- H2, Heq, skipn_app, skipn_all, Nat.sub_diag. reflexivity.
Qed.

(** With a header's worth of bytes in the buffer, and frames to come: the
    first byte is the stream of the first frame and the size field is the
    length of its payload. *)
Lemma frames_header (buf rest : list byte) (fs : list Frame) :
  buf ++ rest = encode_frames fs -> 8 <= len buf -> frames_ok fs = true ->
  exists f fs',
    fs = f :: fs'
    /\ nth stdWriterFdIndex buf x00 = frame_stream f
    /\ BigEndian_Uint32 (firstn 4 (skipn stdWriterSizeIndex buf))
       = len (frame_payload f)
    /\ frames_ok fs' = true.
Proof.
  intros Henc Hlen Hok.
  destruct fs as [| f fs'].
  { cbn in Henc. apply app_eq_nil in Henc as [-> _]. cbn in Hlen. lia. }
  exists f, fs'. cbn [frames_ok forallb] in Hok.
  apply andb_true_iff in Hok as [Hsize Hok].
  apply Z.ltb_lt in Hsize.
  split; [reflexivity |].
  set (header := frame_stream f :: x00 :: x00 :: x00
                   :: PutUint32 (len (frame_payload f))).
  assert (Henc' : buf ++ rest
                  = header ++ (frame_payload f ++ encode_frames fs')).
  { rewrite Henc. unfold encode_frames. cbn [map List.concat].
    unfold encode_frame, header, PutUint32. cbn [app].
    rewrite <- ?app_assoc. reflexivity. }
  destruct (app_eq_prefix buf rest header _ Henc') as [Hfirst _].
  { unfold len in Hlen. cbn [header List.length PutUint32]. lia. }
  cbn [List.length header PutUint32] in Hfirst.
  assert (Hbuf : buf = header ++ skipn 8 buf).
  { rewrite <- Hfirst. symmetry. apply firstn_skipn. }
  rewrite Hbuf. unfold header, stdWriterFdIndex, stdWriterSizeIndex.
  cbn [nth app skipn firstn PutUint32].
  split; [reflexivity |]. split; [| exact Hok].
  apply (BigEndian_PutUint32 (len (frame_payload f))).
  pose proof (len_nonneg (frame_payload f)). lia.
Qed.

(** With the whole first frame in the buffer: its payload follows the
    header, and what follows the payload is the frames after it. *)
Lemma frames_payload (buf rest : list byte) (f : Frame) (fs : list Frame) :
  buf ++ rest = encode_frames (f :: fs) ->
  len (frame_payload f) + 8 <= len buf ->
  firstn (Z.to_nat (len (frame_payload f)))
    (skipn (Z.to_nat stdWriterPrefixLen) buf) = frame_payload f
  /\ skipn (Z.to_nat (len (frame_payload f) + stdWriterPrefixLen)) buf ++ rest
     = encode_frames fs.
Proof.
  intros Henc Hlen.
  assert (Henc' : buf ++ rest = encode_frame f ++ encode_frames fs)
    by exact Henc.
  destruct (app_eq_prefix buf rest (encode_frame f) _ Henc') as [Hfirst Hrest].
  { pose proof (len_encode_frame f) as Hl. unfold len in *. lia. }
  assert (Hn : List.length (encode_frame f)
               = (8 + List.length (frame_payload f))%nat).
  { pose proof (len_encode_frame f) as Hl. unfold len in Hl. lia. }
  unfold stdWriterPrefixLen, len.
  replace (Z.to_nat (Z.of_nat (List.length (frame_payload f)) + 8))
    with (List.length (encode_frame f)) by lia.
  split; [| exact Hrest].
  rewrite Nat2Z.id.
  change (Z.to_nat 8) with 8%nat.
  rewrite firstn_skipn_comm, <- Hn, Hfirst.
  unfold encode_frame. cbn [skipn PutUint32 app]. reflexivity.
Qed.

(** ** [StdCopy] on a tee *)

(** Brings the result of a read loop of the goal, and what [fill_tee] says
    of it, into three cases. *)
Ltac fill_cases s w Hfill :=
  match goal with
  | |- context [fill ?fuel ?target ?bufLen ?buf ?src] =>
      assert (Hfill : fill_post target buf s w (fill fuel target bufLen buf src))
        by (apply fill_tee; [try assumption; try lia | lia]);
      revert Hfill;
      destruct (fill fuel target bufLen buf src) as [? [? ?] | ? [? ?] | ? [? ?] |];
      cbn [fill_post tee_r tee_w]; intros Hfill; [| | | contradiction]
  end.

Lemma len_encode_frames_cons (f : Frame) (fs : list Frame) :
  len (encode_frames (f :: fs))
  = 8 + len (frame_payload f) + len (encode_frames fs).
Proof.
  unfold encode_frames. cbn [map List.concat].
  rewrite len_app, len_encode_frame. reflexivity.
Qed.

Lemma StdCopy_loop_tee (fuel : nat) :
  forall (buf : list byte) (bufLen written : Z) (dstout dsterr : nat)
         (s : Stream) (w : Buffer) (h : store),
    stdWriterPrefixLen <= bufLen ->
    (List.length buf + Stream_size s + 2 <= fuel)%nat ->
    loop_post buf s w dstout dsterr h
      (StdCopy_loop fuel buf bufLen written dstout dsterr (TeeReader s w) h).
Proof.
  induction fuel as [| fuel IH];
    intros buf bufLen written dstout dsterr s w h Hroom Hfuel; [lia |].
  cbn [StdCopy_loop].
  fill_cases s w Hhead.
  - (* a header is in the buffer *)
    destruct Hhead as (d1 & -> & -> & Hp1 & Hf1 & Hlen1 & Hs1).
    rename tee_r0 into s1.
    set (stream := byte_val (nth stdWriterFdIndex (buf ++ d1) x00)).
    set (frameSize :=
           BigEndian_Uint32 (firstn 4 (skipn stdWriterSizeIndex (buf ++ d1)))).
    set (bufLen1 := if bufLen <? frameSize + stdWriterPrefixLen
                    then bufLen + (frameSize + stdWriterPrefixLen - bufLen + 1)
                    else bufLen).
    assert (Hsize : 0 <= frameSize) by apply BigEndian_Uint32_nonneg.
    assert (Hroom1 : frameSize + stdWriterPrefixLen <= bufLen1).
    { subst bufLen1.
      destruct (Z.ltb_spec bufLen (frameSize + stdWriterPrefixLen)); lia. }
    assert (Hframe : forall fs,
               frames_ok fs = true -> buf ++ pending s = encode_frames fs ->
               exists f fs',
                 fs = f :: fs' /\ stream = byte_val (frame_stream f)
                 /\ frameSize = len (frame_payload f)
                 /\ frames_ok fs' = true).
    { intros fs Hok Henc.
      destruct (frames_header (buf ++ d1) (pending s1) fs)
        as (f & fs' & -> & Hst & Hsz & Hok'); auto.
      - rewrite <- app_assoc, <- Hp1. exact Henc.
      - exists f, fs'. subst stream frameSize. rewrite Hst. auto. }
    destruct (Z.ltb_spec Systemerr stream) as [Hunknown | Hknown].
    { (* an unknown stream byte *)
      cbn [loop_post tee_r tee_w]. split.
      - rewrite Hp1, app_assoc. reflexivity.
      - intros fs Hok Henc.
        destruct (Hframe fs Hok Henc) as (f & fs' & -> & Hst & Hsz & Hok').
        cbn [demux demux_all]. rewrite <- Hst.
        destruct (Z.leb_spec Systemerr stream); [| lia].
        split; [reflexivity | discriminate]. }
    fill_cases s1 (w ++ d1) Hbody.
    + (* the frame is in the buffer *)
      destruct Hbody as (d2 & -> & -> & Hp2 & Hf2 & Hlen2 & Hs2).
      rename tee_r0 into s2.
      assert (Htee : w ++ pending s = ((w ++ d1) ++ d2) ++ pending s2).
      { rewrite Hp1, Hp2, !app_assoc. reflexivity. }
      assert (Hall : ((buf ++ d1) ++ d2) ++ pending s2 = buf ++ pending s).
      { rewrite Hp1, Hp2, !app_assoc. reflexivity. }
      set (payload := firstn (Z.to_nat frameSize)
                        (skipn (Z.to_nat stdWriterPrefixLen)
                           ((buf ++ d1) ++ d2))).
      set (rest := skipn (Z.to_nat (frameSize + stdWriterPrefixLen))
                     ((buf ++ d1) ++ d2)).
      assert (Hpayload : forall f fs',
                 buf ++ pending s = encode_frames (f :: fs') ->
                 frameSize = len (frame_payload f) ->
                 payload = frame_payload f
                 /\ rest ++ pending s2 = encode_frames fs').
      { intros f fs' Henc Hsz. subst payload rest. rewrite Hsz.
        apply frames_payload.
        - rewrite Hall. exact Henc.
        - rewrite <- Hsz. exact Hlen2. }
      destruct (Z.eqb_spec stream Systemerr) as [Hdaemon | Hwrite].
      { (* an error frame of the daemon *)
        cbn [loop_post tee_r tee_w]. split; [exact Htee |].
        intros fs Hok Henc.
        destruct (Hframe fs Hok Henc) as (f & fs' & -> & Hst & Hsz & Hok').
        cbn [demux demux_all]. rewrite <- Hst.
        destruct (Z.leb_spec Systemerr stream); [| lia].
        split; [reflexivity | discriminate]. }
      destruct (store_Write payload
                  (if stream =? Stderr then dsterr else dstout) h)
        as [[nw ew] h'] eqn:Hw.
      destruct ew as [e |].
      { (* the writer fails *)
        cbn [loop_post tee_r tee_w]. split; [exact Htee |].
        intros fs Hok Henc.
        destruct (Hframe fs Hok Henc) as (f & fs' & -> & Hst & Hsz & Hok').
        destruct (Hpayload f fs' Henc Hsz) as [Hpay _].
        cbn [demux demux_all]. rewrite <- Hst, <- Hpay, Hw.
        destruct (Z.leb_spec Systemerr stream); [lia |].
        split; [reflexivity | discriminate]. }
      destruct (Z.eqb_spec nw frameSize) as [Hfull | Hshort].
      * (* the frame is delivered: on to the next one *)
        assert (Hrest : (List.length rest + Stream_size s2 + 2 <= fuel)%nat).
        { subst rest. rewrite length_skipn.
          unfold len, stdWriterPrefixLen in *. rewrite !length_app in *. lia. }
        pose proof (IH rest bufLen1 (wrap64 (written + nw)) dstout dsterr
                      s2 ((w ++ d1) ++ d2) h' ltac:(lia) Hrest) as Hrec.
        revert Hrec.
        match goal with
        | |- loop_post _ _ _ _ _ _ ?r -> _ =>
            destruct r as [[res [h'' t]] |]
        end; cbn [loop_post]; [| tauto].
        intros [Htee' Hdemux]. split; [congruence |].
        intros fs Hok Henc.
        destruct (Hframe fs Hok Henc) as (f & fs' & -> & Hst & Hsz & Hok').
        destruct (Hpayload f fs' Henc Hsz) as [Hpay Hnext].
        destruct (Hdemux fs' Hok' Hnext) as [Hstore Hdone].
        cbn [demux demux_all]. rewrite <- Hst, <- Hpay, Hw.
        destruct (Z.leb_spec Systemerr stream); [lia |].
        rewrite Hpay, <- Hsz, Hfull, Z.eqb_refl. auto.
      * (* a short write *)
        cbn [loop_post tee_r tee_w]. split; [exact Htee |].
        intros fs Hok Henc.
        destruct (Hframe fs Hok Henc) as (f & fs' & -> & Hst & Hsz & Hok').
        destruct (Hpayload f fs' Henc Hsz) as [Hpay _].
        cbn [demux demux_all]. rewrite <- Hst, <- Hpay, Hw.
        destruct (Z.leb_spec Systemerr stream); [lia |].
        rewrite Hpay, <- Hsz.
        destruct (Z.eqb_spec nw frameSize); [contradiction |].
        split; [reflexivity | discriminate].
    + (* the stream ends inside the frame *)
      destruct Hbody as (-> & -> & Hp2 & Hlen2).
      cbn [loop_post tee_r tee_w]. split.
      * rewrite Hp2, Hp1, !app_assoc, app_nil_r. reflexivity.
      * intros fs Hok Henc. exfalso.
        destruct (Hframe fs Hok Henc) as (f & fs' & -> & Hst & Hsz & Hok').
        pose proof (len_encode_frames_cons f fs') as Hl.
        rewrite <- Henc, Hp1, app_assoc in Hl.
        pose proof (len_nonneg (encode_frames fs')).
        unfold stdWriterPrefixLen in *. lia.
    + (* the stream fails inside the frame *)
      destruct Hbody as (-> & Hp2 & Hlen2).
      cbn [loop_post tee_r tee_w]. split.
      * rewrite Hp2, Hp1, !app_assoc, app_nil_r. reflexivity.
      * intros fs Hok Henc. exfalso.
        destruct (Hframe fs Hok Henc) as (f & fs' & -> & Hst & Hsz & Hok').
        pose proof (len_encode_frames_cons f fs') as Hl.
        rewrite <- Henc, Hp1, app_assoc in Hl.
        pose proof (len_nonneg (encode_frames fs')).
        unfold stdWriterPrefixLen in *. lia.
  - (* the stream ends before a header is complete *)
    destruct Hhead as (-> & -> & Hp & Hlen).
    cbn [loop_post tee_r tee_w]. split.
    + rewrite Hp, app_nil_r. reflexivity.
    + intros fs Hok Henc. destruct fs as [| f fs'].
      * cbn [demux demux_all]. auto.
      * exfalso. pose proof (len_encode_frames_cons f fs') as Hl.
        rewrite <- Henc in Hl.
        pose proof (len_nonneg (encode_frames fs')).
        pose proof (len_nonneg (frame_payload f)).
        unfold stdWriterPrefixLen in *. lia.
  - (* the stream fails before a header is complete *)
    destruct Hhead as (-> & Hp & Hlen).
    cbn [loop_post tee_r tee_w]. split.
    + rewrite Hp, app_nil_r. reflexivity.
    + intros fs Hok Henc. destruct fs as [| f fs'].
      * cbn [demux demux_all]. auto.
      * exfalso. pose proof (len_encode_frames_cons f fs') as Hl.
        rewrite <- Henc in Hl.
        pose proof (len_nonneg (encode_frames fs')).
        pose proof (len_nonneg (frame_payload f)).
        unfold stdWriterPrefixLen in *. lia.
Qed.

(** The fuel [StdCopy_tee] gives [StdCopy] is enough. *)
Lemma StdCopy_fuel_enough (dstout dsterr : nat) (s : Stream) (w : Buffer)
  (h : store) :
  StdCopy (StdCopy_fuel s) dstout dsterr (TeeReader s w) h <> None.
Proof.
  pose proof (StdCopy_loop_tee (StdCopy_fuel s) [] startingBufLen 0
                dstout dsterr s w h) as Hloop.
  unfold StdCopy. intros Hnone. rewrite Hnone in Hloop. apply Hloop.
  - unfold startingBufLen, stdWriterPrefixLen. lia.
  - unfold StdCopy_fuel. cbn [List.length]. lia.
Qed.

(** [StdCopy] through a tee into an empty buffer: the buffer ends with the
    bytes read from the stream, which is the stream less what is left in
    it; and when the stream is frames, the writers are as [demux] leaves
    them, and the buffer holds the whole stream if every frame was
    delivered. *)
Lemma StdCopy_tee_spec (dstout dsterr : nat) (reader : Stream) (h : store) :
  let res := StdCopy_tee dstout dsterr (TeeReader reader []) h in
  pending reader = tee_w (snd (snd res)) ++ pending (tee_r (snd (snd res)))
  /\ forall fs,
       frames_ok fs = true -> pending reader = encode_frames fs ->
       fst (snd res) = demux fs dstout dsterr h
       /\ (demux_all fs dstout dsterr h = true ->
           tee_w (snd (snd res)) = pending reader).
Proof.
  intros res. subst res. unfold StdCopy_tee, StdCopy. cbn [tee_r].
  match goal with
  | |- context [match ?r with Some _ => _ | None => _ end] =>
      assert (Hloop : loop_post [] reader [] dstout dsterr h r);
      [ apply StdCopy_loop_tee;
        [ unfold startingBufLen, stdWriterPrefixLen; lia
        | unfold StdCopy_fuel; cbn [List.length]; lia ]
      | revert Hloop; destruct r as [[res [h' t]] |] ]
  end; cbn [loop_post fst snd]; intros Hloop; [| contradiction].
  destruct Hloop as [Htee Hdemux].
  cbn [app] in Htee, Hdemux. split; [exact Htee |].
  intros fs Hok Henc. destruct (Hdemux fs Hok Henc) as [Hstore Hdone].
  split; [exact Hstore |].
  intros Hall. rewrite Htee, (Hdone Hall), app_nil_r. reflexivity.
Qed.

(** C3. Once attached, the output of the session goes one of two ways.
    With both writers given, [StdCopy] reads the stream through a tee: the
    transcript buffer ends with exactly the bytes read from the stream, and
    when the stream is a sequence of frames each payload has gone to the
    writer of its stream, frame by frame, the buffer holding the whole raw
    stream once all are delivered.  With a writer missing, the writers are
    left as they were and the buffer holds the raw stream as it came.  The
    transcript returned, when the inspection succeeds, is that buffer. *)
Theorem ExecContainer_output_routing {W : Type} (ds : DockerService W)
  (id cmd : string) (timeout : Z) (stdout stderr : option nat)
  (env : list string) (privileged : bool) (s : St W) :
  let ctx := WithTimeout Background (Duration_seconds timeout) in
  let options :=
    {| AttachStdout := true; AttachStderr := true; Cmd := ["sh"; "-c"; cmd];
       exec_Env := env; Privileged := privileged |} in
  let create := ContainerExecCreate (client ds) ctx id options (world s) in
  let execID := exec_ID (fst (fst create)) in
  let attach :=
    ContainerExecAttach (client ds) ctx execID mkExecStartOptions (snd create) in
  let inspect := ContainerExecInspect (client ds) ctx execID (snd attach) in
  let reader := hijack_Reader (fst (fst attach)) in
  let transcript := fst (ExecContainer_copy id execID stdout stderr reader s) in
  let out := ExecContainer ds id cmd timeout stdout stderr env privileged s in
  snd (fst create) = None -> snd (fst attach) = None ->
  (snd (fst inspect) = None ->
   snd (fst (fst out)) = Buffer_String transcript)
  /\ match stdout, stderr with
     | Some o, Some e =>
         let copied := StdCopy_tee o e (TeeReader reader []) (writers s) in
         writers (snd out) = fst (snd copied)
         /\ pending reader = transcript ++ pending (tee_r (snd (snd copied)))
         /\ forall fs,
              frames_ok fs = true -> pending reader = encode_frames fs ->
              writers (snd out) = demux fs o e (writers s)
              /\ (demux_all fs o e (writers s) = true ->
                  transcript = pending reader)
     | _, _ => writers (snd out) = writers s /\ transcript = pending reader
     end.
Proof.
  intros ctx options create execID attach inspect reader transcript out.
  subst out transcript reader inspect attach execID create.
  unfold ExecContainer. fold ctx options. run.
  destruct (ContainerExecCreate _ _ _ _ _) as [[resp [e |]] w1]; run;
    [discriminate |].
  destruct (ContainerExecAttach _ _ _ _ _) as [[outresp [e |]] w2]; run;
    [intros _; discriminate |].
  intros _ _. rewrite !ExecContainer_copy_run.
  cbn [fst snd world trace logs writers].
  destruct (ContainerExecInspect _ _ _ _) as [[insp [e |]] w3]; run.
  - split; [discriminate |].
    unfold copy_result.
    destruct stdout as [o |], stderr as [e' |]; cbn [fst snd]; auto.
    pose proof (StdCopy_tee_spec o e' (hijack_Reader outresp) (writers s))
      as Hspec.
    cbv zeta in *.
    destruct (StdCopy_tee o e' _ (writers s)) as [[n cerr] [h' t]].
    cbn [fst snd] in *. destruct Hspec as [Htee Hdemux].
    split; [reflexivity |]. split; [exact Htee |]. exact Hdemux.
  - split; [reflexivity |].
    unfold copy_result.
    destruct stdout as [o |], stderr as [e' |]; cbn [fst snd]; auto.
    pose proof (StdCopy_tee_spec o e' (hijack_Reader outresp) (writers s))
      as Hspec.
    cbv zeta in *.
    destruct (StdCopy_tee o e' _ (writers s)) as [[n cerr] [h' t]].
    cbn [fst snd] in *. destruct Hspec as [Htee Hdemux].
    split; [reflexivity |]. split; [exact Htee |]. exact Hdemux.
Qed.

Lemma ExecContainer_output_routing_witness :
  let out :=
    ExecContainer (Sim.service Sim.script) "id-box" "echo hello; echo oops >&2"
      5 (Some 0%nat) (Some 1%nat) [] false (Sim.init Sim.up) in
  sink_writes (writers (snd out) 0%nat) = [Sim.hello]
  /\ sink_writes (writers (snd out) 1%nat) = [Sim.oops]
  /\ snd (fst (fst out))
     = Buffer_String (encode_frames Sim.frames).
Proof.
  destruct (ExecContainer_output_routing (Sim.service Sim.script) "id-box"
              "echo hello; echo oops >&2" 5 (Some 0%nat) (Some 1%nat) []
              false (Sim.init Sim.up))
    as [Htranscript (_ & _ & Hframes)]; [reflexivity | reflexivity |].
  destruct (Hframes Sim.frames) as [Hwriters Hwhole];
    [reflexivity | reflexivity |].
  cbv zeta. rewrite Hwriters, Htranscript, Hwhole.
  - repeat split; reflexivity.
  - reflexivity.
  - reflexivity.
Defined.

(** The same command with the error writer missing: the writer that was
    given receives nothing and the transcript is the raw stream, headers
    and all. *)
Example ExecContainer_raw_copy :
  let out :=
    ExecContainer (Sim.service Sim.script) "id-box" "echo hello; echo oops >&2"
      5 (Some 0%nat) None [] false (Sim.init Sim.up) in
  sink_writes (writers (snd out) 0%nat) = []
  /\ fst out = (0, Buffer_String (encode_frames Sim.frames), None).
Proof. vm_compute. auto. Qed.

(** One writer given for both streams receives the payloads in the order
    of the frames. *)
Example ExecContainer_shared_writer :
  let out :=
    ExecContainer (Sim.service Sim.script) "id-box" "echo hello; echo oops >&2"
      5 (Some 0%nat) (Some 0%nat) [] false (Sim.init Sim.up) in
  sink_writes (writers (snd out) 0%nat) = [Sim.hello; Sim.oops].
Proof. vm_compute. reflexivity. Qed.

(** ** The deadline of [ExecContainer]

    Every call [ExecContainer] makes to the client carries the context
    built from [timeout], a deadline [timeout] seconds away (as an int64
    count of nanoseconds); the last thing it does is to cancel that
    context.  Reading the stream of the session involves no context. *)
Lemma ExecContainer_calls_carry_deadline {W : Type} (ds : DockerService W)
  (id cmd : string) (timeout : Z) (stdout stderr : option nat)
  (env : list string) (privileged : bool) (s : St W) :
  let ctx := WithTimeout Background (Duration_seconds timeout) in
  exists evs,
    trace (snd (ExecContainer ds id cmd timeout stdout stderr env privileged s))
    = trace s ++ evs ++ [CallCancel ctx]
    /\ Forall (fun ev => event_context ev = Some ctx \/ ev = CallClose) evs.
Proof.
  intros ctx. unfold ExecContainer. fold ctx. run.
  destruct (ContainerExecCreate _ _ _ _ _) as [[resp [e |]] w1]; run.
  { eexists [_]. rewrite <- app_assoc. split; [reflexivity |].
    repeat constructor. }
  destruct (ContainerExecAttach _ _ _ _ _) as [[outresp [e |]] w2]; run.
  { eexists [_; _]. rewrite <- !app_assoc. split; [reflexivity |].
    repeat constructor. }
  rewrite ExecContainer_copy_run. cbn [fst snd world trace logs writers].
  destruct (ContainerExecInspect _ _ _ _) as [[insp [e |]] w3]; run;
    eexists [_; _; _; _]; rewrite <- !app_assoc;
    (split; [reflexivity |]);
    repeat (constructor; [first [left; reflexivity | right; reflexivity] |]);
    constructor.
Qed.

Example Duration_seconds_five : Duration_seconds 5 = 5000000000.
Proof. reflexivity. Qed.

(** Past 9223372036 seconds the int64 product wraps around. *)
Example Duration_seconds_wraps : Duration_seconds 9223372037 < 0.
Proof. reflexivity. Qed.

(** * More on the service *)

Lemma errors_logged_app (l l' : list LogEvent) :
  errors_logged (l ++ l') = errors_logged l ++ errors_logged l'.
Proof. unfold errors_logged. apply flat_map_app. Qed.

(** ** [RunImage], call by call *)

(** One run of [RunImage] in one equation. *)
Lemma RunImage_run {W : Type} (ds : DockerService W)
  (name user hostname image workdir : string) (mounts : list Mount)
  (mask readonly networkdisabled : bool) (timeout : Z)
  (networkhosted : bool) (env : list string) (s : St W) :
  let config :=
    RunImage_Config user hostname image workdir networkdisabled timeout env in
  let hostConfig := RunImage_HostConfig mounts mask readonly networkhosted in
  let create :=
    ContainerCreate (client ds) Background config hostConfig None None name
      (world s) in
  let id := create_ID (fst (fst create)) in
  let start :=
    ContainerStart (client ds) Background id mkStartOptions (snd create) in
  let created := CallContainerCreate Background config hostConfig None None name in
  let started := CallContainerStart Background id mkStartOptions in
  RunImage ds name user hostname image workdir mounts mask readonly
    networkdisabled timeout networkhosted env s
  = match snd (fst create) with
    | Some e =>
        ((false, ""),
         {| world := snd create; trace := trace s ++ [created];
            logs := logs s
                    ++ [ {| log_level := ErrorLevel; log_error := Some e;
                            log_fields := [("name", name); ("image", image)];
                            log_msg := "container create error" |} ];
            writers := writers s |})
    | None =>
        let fields := [("name", name); ("image", image); ("id", id)] in
        let debug := fun msg =>
          {| log_level := DebugLevel; log_error := None;
             log_fields := fields; log_msg := msg |} in
        match fst start with
        | Some e =>
            ((false, ""),
             {| world := snd start; trace := trace s ++ [created; started];
                logs := logs s
                        ++ [ debug "container created";
                             {| log_level := ErrorLevel; log_error := Some e;
                                log_fields := fields;
                                log_msg := "container start error" |} ];
                writers := writers s |})
        | None =>
            ((true, id),
             {| world := snd start; trace := trace s ++ [created; started];
                logs := logs s
                        ++ [ debug "container created";
                             debug "container started" ];
                writers := writers s |})
        end
    end.
Proof.
  intros config hostConfig create id start created started.
  subst started created start id create.
  unfold RunImage. fold config hostConfig. run.
  destruct (ContainerCreate _ _ _ _ _ _ _ _) as [[resp [e |]] w1]; run;
    [reflexivity |].
  destruct (ContainerStart _ _ _ _ _) as [[e |] w2]; run;
    rewrite <- !app_assoc; reflexivity.
Qed.

(** X1. [RunImage] asks the daemon to create, and to start only what was
    created, under the identifier of the creation response; it asks nothing
    else.  When the start fails the container stays created: no stop or
    removal is asked for. *)
Theorem RunImage_call_sequence {W : Type} (ds : DockerService W)
  (name user hostname image workdir : string) (mounts : list Mount)
  (mask readonly networkdisabled : bool) (timeout : Z)
  (networkhosted : bool) (env : list string) (s : St W) :
  let config :=
    RunImage_Config user hostname image workdir networkdisabled timeout env in
  let hostConfig := RunImage_HostConfig mounts mask readonly networkhosted in
  let create :=
    ContainerCreate (client ds) Background config hostConfig None None name
      (world s) in
  let id := create_ID (fst (fst create)) in
  let start :=
    ContainerStart (client ds) Background id mkStartOptions (snd create) in
  let out :=
    RunImage ds name user hostname image workdir mounts mask readonly
      networkdisabled timeout networkhosted env s in
  trace (snd out)
  = trace s
    ++ CallContainerCreate Background config hostConfig None None name
       :: match snd (fst create) with
          | None => [CallContainerStart Background id mkStartOptions]
          | Some _ => []
          end
  /\ world (snd out)
     = match snd (fst create) with
       | None => snd start
       | Some _ => snd create
       end
  /\ stops (trace (snd out)) = stops (trace s)
  /\ writers (snd out) = writers s.
Proof.
  intros config hostConfig create id start out.
  subst out. rewrite RunImage_run. fold config hostConfig create id start.
  destruct (snd (fst create)) as [e |]; [| destruct (fst start) as [e |]];
    cbn [snd world trace writers]; rewrite stops_app; cbn [stops];
    rewrite app_nil_r; auto.
Qed.

(** X2. The creation request carries the image, the user, the host name,
    the working directory, the environment and the mounts of the caller as
    they were given. *)
Theorem RunImage_request_fields {W : Type} (ds : DockerService W)
  (name user hostname image workdir : string) (mounts : list Mount)
  (mask readonly networkdisabled : bool) (timeout : Z)
  (networkhosted : bool) (env : list string) (s : St W) :
  exists config hostConfig,
    creations (trace (snd (RunImage ds name user hostname image workdir mounts
                             mask readonly networkdisabled timeout
                             networkhosted env s)))
    = creations (trace s) ++ [(config, hostConfig)]
    /\ Image config = image /\ User config = user
    /\ Hostname config = hostname /\ WorkingDir config = workdir
    /\ Env config = env /\ Mounts hostConfig = mounts.
Proof.
  eexists; eexists; split; [apply RunImage_creations |].
  cbn. repeat split.
Qed.

(** X3. [RunImage] writes the error of the daemon to the log when the
    creation or the start fails, one error and under the message of the
    call that failed, and no error when both succeed: it has returned
    [true] exactly when it has logged no error. *)
Theorem RunImage_logs_its_failure {W : Type} (ds : DockerService W)
  (name user hostname image workdir : string) (mounts : list Mount)
  (mask readonly networkdisabled : bool) (timeout : Z)
  (networkhosted : bool) (env : list string) (s : St W) :
  let create :=
    ContainerCreate (client ds) Background
      (RunImage_Config user hostname image workdir networkdisabled timeout env)
      (RunImage_HostConfig mounts mask readonly networkhosted)
      None None name (world s) in
  let start :=
    ContainerStart (client ds) Background (create_ID (fst (fst create)))
      mkStartOptions (snd create) in
  let out :=
    RunImage ds name user hostname image workdir mounts mask readonly
      networkdisabled timeout networkhosted env s in
  errors_logged (logs (snd out))
  = errors_logged (logs s)
    ++ match snd (fst create) with
       | Some e => [("container create error", e)]
       | None => failure "container start error" (fst start)
       end
  /\ (fst (fst out) = true
      <-> errors_logged (logs (snd out)) = errors_logged (logs s)).
Proof.
  intros create start out. subst out. rewrite RunImage_run.
  fold create start.
  destruct (snd (fst create)) as [e |]; [| destruct (fst start) as [e |]];
    cbn [fst snd logs]; rewrite errors_logged_app; cbn;
    (split; [reflexivity |]); split; try discriminate;
    try (rewrite app_nil_r; reflexivity); try reflexivity;
    intros Heq; exfalso;
    rewrite <- (app_nil_r (errors_logged (logs s))) in Heq at 2;
    apply app_inv_head in Heq; discriminate.
Qed.

(** X4. Cleaning up with what [RunImage] returned: after a success the stop
    request names the container that was created and started; after a
    failure it names the empty identifier, also when a container was
    created and only its start failed. *)
Theorem RunImage_then_CleanContainer {W : Type} (ds : DockerService W)
  (name user hostname image workdir : string) (mounts : list Mount)
  (mask readonly networkdisabled : bool) (timeout : Z)
  (networkhosted : bool) (env : list string) (s : St W) :
  let config :=
    RunImage_Config user hostname image workdir networkdisabled timeout env in
  let hostConfig := RunImage_HostConfig mounts mask readonly networkhosted in
  let create :=
    ContainerCreate (client ds) Background config hostConfig None None name
      (world s) in
  let id := create_ID (fst (fst create)) in
  let out :=
    RunImage ds name user hostname image workdir mounts mask readonly
      networkdisabled timeout networkhosted env s in
  let fin := CleanContainer ds (snd (fst out)) (snd out) in
  (fst (fst out) = true ->
   trace (snd fin)
   = trace s
     ++ [ CallContainerCreate Background config hostConfig None None name;
          CallContainerStart Background id mkStartOptions;
          CallContainerStop Background id {| stop_Timeout := Some 1 |} ])
  /\ (fst (fst out) = false ->
      stops (trace (snd fin))
      = stops (trace s) ++ [(Background, "", {| stop_Timeout := Some 1 |})]).
Proof.
  intros config hostConfig create id out fin. subst fin out.
  rewrite CleanContainer_run, RunImage_run. fold config hostConfig create id.
  destruct (snd (fst create)) as [e |];
    [| destruct (fst (ContainerStart _ _ _ _ _)) as [e |]];
    cbn [fst snd trace]; split; try discriminate; intros _;
    rewrite <- ?app_assoc, ?stops_app; cbn [app stops];
    rewrite ?app_nil_r; reflexivity.
Qed.

Lemma RunImage_then_CleanContainer_witness :
  let out :=
    RunImage (Sim.service Sim.script) "box" "nobody" "box-host" "alpine"
      "/work" [] true true false 3 false [] (Sim.init Sim.empty) in
  stops (trace (snd (CleanContainer (Sim.service Sim.script) (snd (fst out))
                       (snd out))))
  = [(Background, "id-box", {| stop_Timeout := Some 1 |})].
Proof.
  destruct (RunImage_then_CleanContainer (Sim.service Sim.script) "box"
              "nobody" "box-host" "alpine" "/work" [] true true false 3 false
              [] (Sim.init Sim.empty)) as [Hok _].
  cbv zeta in *. rewrite Hok; reflexivity.
Defined.

(** ** [ExecContainer], call by call *)

(** One run of [ExecContainer] in one equation. *)
Lemma ExecContainer_run {W : Type} (ds : DockerService W)
  (id cmd : string) (timeout : Z) (stdout stderr : option nat)
  (env : list string) (privileged : bool) (s : St W) :
  let ctx := WithTimeout Background (Duration_seconds timeout) in
  let options :=
    {| AttachStdout := true; AttachStderr := true; Cmd := ["sh"; "-c"; cmd];
       exec_Env := env; Privileged := privileged |} in
  let create := ContainerExecCreate (client ds) ctx id options (world s) in
  let execID := exec_ID (fst (fst create)) in
  let attach :=
    ContainerExecAttach (client ds) ctx execID mkExecStartOptions (snd create) in
  let outresp := fst (fst attach) in
  let inspect := ContainerExecInspect (client ds) ctx execID (snd attach) in
  let copied :=
    copy_result stdout stderr (hijack_Reader outresp) (writers s) in
  let fields := [("id", id); ("exec_id", execID)] in
  let debug := fun msg =>
    {| log_level := DebugLevel; log_error := None;
       log_fields := fields; log_msg := msg |} in
  let created := CallContainerExecCreate ctx id options in
  let attached := CallContainerExecAttach ctx execID mkExecStartOptions in
  let inspected := CallContainerExecInspect ctx execID in
  ExecContainer ds id cmd timeout stdout stderr env privileged s
  = match snd (fst create) with
    | Some e =>
        ((-1, "", Some e),
         {| world := snd create;
            trace := trace s ++ [created; CallCancel ctx];
            logs := logs s
                    ++ [ {| log_level := ErrorLevel; log_error := Some e;
                            log_fields := [("id", id)];
                            log_msg := "container exec create error" |} ];
            writers := writers s |})
    | None =>
        match snd (fst attach) with
        | Some e =>
            ((-1, "", Some e),
             {| world := snd attach;
                trace := trace s ++ [created; attached; CallCancel ctx];
                logs := logs s
                        ++ [ debug "container exec created";
                             {| log_level := ErrorLevel; log_error := Some e;
                                log_fields := fields;
                                log_msg := "container exec attach error" |} ];
                writers := writers s |})
        | None =>
            (match snd (fst inspect) with
             | Some e => (-1, "", Some e)
             | None =>
                 (ExitCode (fst (fst inspect)),
                  Buffer_String (snd (fst copied)), None)
             end,
             {| world := hijack_Close outresp (snd inspect);
                trace := trace s
                         ++ [created; attached; inspected; CallClose;
                             CallCancel ctx];
                logs := logs s
                        ++ [ debug "container exec created";
                             debug "container exec started" ]
                        ++ copy_log id execID (fst (fst copied))
                        ++ match snd (fst inspect) with
                           | Some e =>
                               [ {| log_level := ErrorLevel;
                                    log_error := Some e; log_fields := fields;
                                    log_msg := "container exec inspect error" |} ]
                           | None => []
                           end;
                writers := snd copied |})
        end
    end.
Proof.
  intros ctx options create execID attach outresp inspect copied fields debug
    created attached inspected.
  subst inspected attached created debug fields copied inspect outresp attach
    execID create.
  unfold ExecContainer. fold ctx options. run.
  destruct (ContainerExecCreate _ _ _ _ _) as [[resp [e |]] w1]; run.
  { rewrite <- !app_assoc. reflexivity. }
  destruct (ContainerExecAttach _ _ _ _ _) as [[out [e |]] w2]; run.
  { rewrite <- !app_assoc. reflexivity. }
  rewrite ExecContainer_copy_run. cbn [fst snd world trace logs writers].
  destruct (ContainerExecInspect _ _ _ _) as [[insp [e |]] w3]; run;
    rewrite <- !app_assoc; cbn [app]; rewrite ?app_nil_r; reflexivity.
Qed.

(** X5. The calls of [ExecContainer], in order: the session is created for
    [sh -c] with the command as its one argument, both streams attached,
    the environment and the privilege of the caller; the attach and the
    inspection name the session the creation returned; the connection is
    closed exactly when the attach succeeded, after the inspection; the
    context is cancelled last, whatever happened. *)
Theorem ExecContainer_call_sequence {W : Type} (ds : DockerService W)
  (id cmd : string) (timeout : Z) (stdout stderr : option nat)
  (env : list string) (privileged : bool) (s : St W) :
  let ctx := WithTimeout Background (Duration_seconds timeout) in
  let options :=
    {| AttachStdout := true; AttachStderr := true; Cmd := ["sh"; "-c"; cmd];
       exec_Env := env; Privileged := privileged |} in
  let create := ContainerExecCreate (client ds) ctx id options (world s) in
  let execID := exec_ID (fst (fst create)) in
  let attach :=
    ContainerExecAttach (client ds) ctx execID mkExecStartOptions (snd create) in
  let inspect := ContainerExecInspect (client ds) ctx execID (snd attach) in
  let out := ExecContainer ds id cmd timeout stdout stderr env privileged s in
  trace (snd out)
  = trace s
    ++ CallContainerExecCreate ctx id options
       :: match snd (fst create) with
          | Some _ => []
          | None =>
              CallContainerExecAttach ctx execID mkExecStartOptions
              :: match snd (fst attach) with
                 | Some _ => []
                 | None => [CallContainerExecInspect ctx execID; CallClose]
                 end
          end
    ++ [CallCancel ctx]
  /\ world (snd out)
     = match snd (fst create) with
       | Some _ => snd create
       | None =>
           match snd (fst attach) with
           | Some _ => snd attach
           | None => hijack_Close (fst (fst attach)) (snd inspect)
           end
       end.
Proof.
  intros ctx options create execID attach inspect out. subst out.
  rewrite ExecContainer_run. fold ctx options create execID attach inspect.
  destruct (snd (fst create)) as [e |];
    [| destruct (snd (fst attach)) as [e |]];
    cbn [snd world trace app]; auto.
Qed.

(** X6. The deadline of [ExecContainer] is [timeout] seconds, in
    nanoseconds, as long as the product fits an int64; from 9223372037
    seconds on it has wrapped around, and up to 18446744073 seconds the
    duration the context is built with is negative. *)
Theorem ExecContainer_deadline {W : Type} (ds : DockerService W)
  (id cmd : string) (timeout : Z) (stdout stderr : option nat)
  (env : list string) (privileged : bool) (s : St W) :
  let out := ExecContainer ds id cmd timeout stdout stderr env privileged s in
  (exists options evs,
      trace (snd out)
      = trace s
        ++ CallContainerExecCreate
             (WithTimeout Background (Duration_seconds timeout)) id options
           :: evs)
  /\ (-9223372036 <= timeout <= 9223372036 ->
      Duration_seconds timeout = timeout * 1000000000)
  /\ (9223372037 <= timeout <= 18446744073 ->
      Duration_seconds timeout = timeout * 1000000000 - 2 ^ 64
      /\ Duration_seconds timeout < 0).
Proof.
  intros out. split; [| split].
  - subst out. rewrite ExecContainer_run.
    destruct (snd (fst (ContainerExecCreate _ _ _ _ _))) as [e |];
      [| destruct (snd (fst (ContainerExecAttach _ _ _ _ _))) as [e |]];
      cbn [snd trace]; eexists; eexists; reflexivity.
  - intros Hrange. unfold Duration_seconds, wrap64, Second.
    rewrite Z.mod_small; lia.
  - intros Hrange. unfold Duration_seconds, wrap64, Second.
    assert (Hmod : (timeout * 1000000000 + 2 ^ 63) mod 2 ^ 64
                   = timeout * 1000000000 + 2 ^ 63 - 2 ^ 64).
    { symmetry. apply (Z.mod_unique _ _ 1); lia. }
    rewrite Hmod. lia.
Qed.

Lemma ExecContainer_deadline_witness :
  Duration_seconds 30 = 30000000000
  /\ Duration_seconds 10000000000 = 10000000000000000000 - 2 ^ 64.
Proof.
  destruct (ExecContainer_deadline (Sim.service Sim.script) "id-box" "true"
              30 None None [] false (Sim.init Sim.up)) as (_ & Hfit & _).
  destruct (ExecContainer_deadline (Sim.service Sim.script) "id-box" "true"
              10000000000 None None [] false (Sim.init Sim.up))
    as (_ & _ & Hwrap).
  split.
  - apply Hfit. lia.
  - apply Hwrap. lia.
Defined.

(** X7. [ExecContainer] logs every error it meets, under the message of
    the step that failed: the creation, the attach, the copy, the
    inspection.  It returns no error exactly when the three calls succeed,
    and an error it returns is one it has logged. *)
Theorem ExecContainer_logs_its_failures {W : Type} (ds : DockerService W)
  (id cmd : string) (timeout : Z) (stdout stderr : option nat)
  (env : list string) (privileged : bool) (s : St W) :
  let ctx := WithTimeout Background (Duration_seconds timeout) in
  let options :=
    {| AttachStdout := true; AttachStderr := true; Cmd := ["sh"; "-c"; cmd];
       exec_Env := env; Privileged := privileged |} in
  let create := ContainerExecCreate (client ds) ctx id options (world s) in
  let execID := exec_ID (fst (fst create)) in
  let attach :=
    ContainerExecAttach (client ds) ctx execID mkExecStartOptions (snd create) in
  let inspect := ContainerExecInspect (client ds) ctx execID (snd attach) in
  let copied :=
    copy_result stdout stderr (hijack_Reader (fst (fst attach))) (writers s) in
  let out := ExecContainer ds id cmd timeout stdout stderr env privileged s in
  let met :=
    match snd (fst create) with
    | Some e => [("container exec create error", e)]
    | None =>
        match snd (fst attach) with
        | Some e => [("container exec attach error", e)]
        | None =>
            failure "container exec copy error" (fst (fst copied))
            ++ failure "container exec inspect error" (snd (fst inspect))
        end
    end in
  errors_logged (logs (snd out)) = errors_logged (logs s) ++ met
  /\ (snd (fst out) = None
      <-> snd (fst create) = None /\ snd (fst attach) = None
          /\ snd (fst inspect) = None)
  /\ (forall e, snd (fst out) = Some e -> exists msg, In (msg, e) met).
Proof.
  intros ctx options create execID attach inspect copied out met.
  subst met out. rewrite ExecContainer_run.
  fold ctx options create execID attach inspect copied.
  destruct (snd (fst create)) as [e |];
    [| destruct (snd (fst attach)) as [e |];
       [| destruct (snd (fst inspect)) as [e |]]];
    cbn [fst snd logs]; rewrite ?errors_logged_app.
  - split; [reflexivity |]. split; [split; [| intros [H _]]; discriminate |].
    intros e' [= <-]. eexists. left. reflexivity.
  - split; [reflexivity |].
    split; [split; [| intros (_ & H & _)]; discriminate |].
    intros e' [= <-]. eexists. left. reflexivity.
  - split.
    + destruct (fst (fst copied)); reflexivity.
    + split; [split; [| intros (_ & _ & H)]; discriminate |].
      intros e' [= <-]. eexists. apply in_or_app. right. left. reflexivity.
  - split.
    + destruct (fst (fst copied)); cbn; rewrite ?app_nil_r; reflexivity.
    + split; [split; auto |]. intros e' H. discriminate.
Qed.

(** ** The inspectors, call by call *)

(** X8. [GetContainerLogs] asks once, for both streams and with no
    deadline, and asks nothing else: the stream it is given is never
    closed.  It returns no error exactly when the request succeeds and the
    stream ends with [io.EOF]; it then returns every byte of the stream, in
    order, however the daemon cut it into reads.  With an error it returns
    no bytes, also when some were read. *)
Theorem GetContainerLogs_result {W : Type} (ds : DockerService W)
  (id : string) (s : St W) :
  let options := {| ShowStdout := true; ShowStderr := true |} in
  let request := ContainerLogs (client ds) Background id options (world s) in
  let resp := fst (fst request) in
  let out := GetContainerLogs ds id s in
  trace (snd out) = trace s ++ [CallContainerLogs Background id options]
  /\ (snd (fst out) = None <-> snd (fst request) = None /\ final resp = None)
  /\ (snd (fst out) = None ->
      fst (fst out) = string_of_list_byte (pending resp)
      /\ list_byte_of_string (fst (fst out)) = List.concat (chunks resp))
  /\ (snd (fst out) <> None -> fst (fst out) = "").
Proof.
  intros options request resp out. subst out resp request.
  unfold GetContainerLogs. fold options. run.
  destruct (ContainerLogs _ _ _ _ _) as [[resp [e |]] w1]; run.
  - split; [reflexivity |].
    split; [split; [| intros [H _]]; discriminate |].
    split; [discriminate | reflexivity].
  - unfold io_ReadAll, pending. destruct (final resp) as [e |]; run.
    + split; [reflexivity |].
      split; [split; [| intros [_ H]]; discriminate |].
      split; [discriminate | reflexivity].
    + split; [reflexivity |]. split; [split; auto |].
      split; [intros _ | intros H; contradiction H; reflexivity].
      split; [reflexivity | apply list_byte_of_string_of_list_byte].
Qed.

Lemma GetContainerLogs_result_witness :
  fst (fst (GetContainerLogs (Sim.service Sim.script) "id-box"
              (Sim.init Sim.up)))
  = "hellooops".
Proof.
  destruct (GetContainerLogs_result (Sim.service Sim.script) "id-box"
              (Sim.init Sim.up)) as (_ & _ & Hbytes & _).
  destruct Hbytes as [Hstring _]; [reflexivity |].
  cbv zeta in Hstring. rewrite Hstring. reflexivity.
Defined.

(** X9. [GetContainerIP] asks for one inspection, with no deadline.  A
    non-empty string it returns is the primary address the daemon reported
    in a successful inspection; a failed inspection shows in the log only,
    as one error. *)
Theorem GetContainerIP_result {W : Type} (ds : DockerService W)
  (id : string) (s : St W) :
  let inspect := ContainerInspect (client ds) Background id (world s) in
  let out := GetContainerIP ds id s in
  trace (snd out) = trace s ++ [CallContainerInspect Background id]
  /\ errors_logged (logs (snd out))
     = errors_logged (logs s)
       ++ failure "failed to get ip: container inspect error"
            (snd (fst inspect))
  /\ (forall ip, fst out = Returned ip -> ip <> "" ->
      snd (fst inspect) = None
      /\ exists settings,
           inspect_NetworkSettings (fst (fst inspect)) = Some settings
           /\ IPAddress settings = ip).
Proof.
  intros inspect out. subst out inspect. unfold GetContainerIP. run.
  destruct (ContainerInspect _ _ _ _) as [[info [e |]] w1]; run.
  - split; [reflexivity |]. split.
    + rewrite errors_logged_app. reflexivity.
    + intros ip [= <-] Hne. contradiction Hne. reflexivity.
  - split; [destruct (inspect_NetworkSettings info); reflexivity |]. split.
    + destruct (inspect_NetworkSettings info); run; cbn [failure];
        rewrite app_nil_r; reflexivity.
    + intros ip Hres _. split; [reflexivity |].
      destruct (inspect_NetworkSettings info) as [settings |]; run.
      * injection Hres as <-. eauto.
      * discriminate.
Qed.

Lemma GetContainerIP_result_witness :
  exists settings,
    Sim.container_ip Sim.script = Some settings
    /\ IPAddress settings = "172.17.0.2".
Proof.
  destruct (GetContainerIP_result (Sim.service Sim.script) "id-box"
              (Sim.init Sim.up)) as (_ & _ & Hip).
  destruct (Hip "172.17.0.2") as [_ Hsettings].
  - reflexivity.
  - discriminate.
  - exact Hsettings.
Defined.

(** ** The writers of the caller *)

Lemma grown_refl (dstout dsterr : nat) (h : store) : grown dstout dsterr h h.
Proof.
  intros a. split; [reflexivity |]. split; [| reflexivity].
  exists []. symmetry. apply app_nil_r.
Qed.

Lemma grown_trans (dstout dsterr : nat) (h1 h2 h3 : store) :
  grown dstout dsterr h1 h2 -> grown dstout dsterr h2 h3 ->
  grown dstout dsterr h1 h3.
Proof.
  intros H12 H23 a.
  destruct (H12 a) as (Hr1 & [m1 Hw1] & Hs1).
  destruct (H23 a) as (Hr2 & [m2 Hw2] & Hs2).
  split; [congruence |]. split.
  - exists (m1 ++ m2). rewrite Hw2, Hw1, app_assoc. reflexivity.
  - intros Ho He. rewrite Hs2, Hs1; auto.
Qed.

(** One [Write] to one of the two destinations. *)
Lemma grown_Write (dstout dsterr : nat) (p : list byte) (out : nat) (h : store) :
  out = dstout \/ out = dsterr ->
  grown dstout dsterr h (snd (store_Write p out h)).
Proof.
  intros Hout a. unfold store_Write, Write, Sink_Write. cbn [snd].
  destruct (Nat.eqb_spec a out) as [-> | Hne].
  - cbn [sink_reply sink_writes]. split; [reflexivity |]. split; [eauto |].
    intros Ho He. destruct Hout; congruence.
  - split; [reflexivity |]. split; [| reflexivity].
    exists []. symmetry. apply app_nil_r.
Qed.

(** [StdCopy], whatever it reads from and whatever it reads, only adds to
    what its two destinations have received. *)
Lemma StdCopy_loop_grown {R : Type} `{Reader R} (fuel : nat) :
  forall (buf : list byte) (bufLen written : Z) (dstout dsterr : nat)
         (src : R) (h : store) res h' src',
    StdCopy_loop fuel buf bufLen written dstout dsterr src h
    = Some (res, (h', src')) ->
    grown dstout dsterr h h'.
Proof.
  induction fuel as [| fuel IH];
    intros buf bufLen written dstout dsterr src h res h' src' Hrun;
    [discriminate |].
  cbn [StdCopy_loop] in Hrun.
  destruct (fill fuel stdWriterPrefixLen bufLen buf src)
    as [buf1 src1 | buf1 src1 | e1 src1 |];
    try (injection Hrun as _ <- _; apply grown_refl); [| discriminate].
  destruct (Systemerr <? _);
    [injection Hrun as _ <- _; apply grown_refl |].
  destruct (fill fuel _ _ buf1 src1) as [buf2 src2 | buf2 src2 | e2 src2 |];
    try (injection Hrun as _ <- _; apply grown_refl); [| discriminate].
  destruct (_ =? Systemerr);
    [injection Hrun as _ <- _; apply grown_refl |].
  match type of Hrun with
  | context [store_Write ?p ?out h] =>
      pose proof (grown_Write dstout dsterr p out h) as Hwrite;
      destruct (store_Write p out h) as [[nw ew] h1]
  end.
  cbn [snd] in Hwrite.
  assert (Hgrown : grown dstout dsterr h h1).
  { apply Hwrite. destruct (_ =? Stderr); auto. }
  destruct ew as [e |]; [injection Hrun as _ <- _; exact Hgrown |].
  destruct (nw =? _); [| injection Hrun as _ <- _; exact Hgrown].
  apply (grown_trans _ _ h h1 h'); [exact Hgrown |].
  eapply IH. exact Hrun.
Qed.

Lemma copy_result_grown (stdout stderr : option nat) (reader : Stream)
  (h : store) :
  match stdout, stderr with
  | Some o, Some e => grown o e h (snd (copy_result stdout stderr reader h))
  | _, _ => snd (copy_result stdout stderr reader h) = h
  end.
Proof.
  unfold copy_result.
  destruct stdout as [o |], stderr as [e |]; try reflexivity.
  unfold StdCopy_tee, StdCopy. cbn [tee_r].
  match goal with
  | |- context [match ?r with Some _ => _ | None => _ end] =>
      destruct r as [[[n err] [h' t]] |] eqn:Hrun
  end; cbn [snd].
  - eapply (@StdCopy_loop_grown (teeReader Stream Buffer) _). exact Hrun.
  - apply grown_refl.
Qed.

(** X10. Whatever the daemon sends and whatever fails, [ExecContainer] only
    adds to what the writers of the caller have received: what a writer had
    received stays, in order; a writer that is not one of the two given
    is left as it was; and when one of the two is missing the one that is
    given is left as it was too. *)
Theorem ExecContainer_writers_only_grow {W : Type} (ds : DockerService W)
  (id cmd : string) (timeout : Z) (stdout stderr : option nat)
  (env : list string) (privileged : bool) (s : St W) (a : nat) :
  let out := ExecContainer ds id cmd timeout stdout stderr env privileged s in
  sink_reply (writers (snd out) a) = sink_reply (writers s a)
  /\ (exists more,
         sink_writes (writers (snd out) a) = sink_writes (writers s a) ++ more)
  /\ (stdout <> Some a -> stderr <> Some a ->
      writers (snd out) a = writers s a)
  /\ (stdout = None \/ stderr = None -> writers (snd out) a = writers s a).
Proof.
  intros out.
  assert (Hsame : writers (snd out) = writers s
                  -> sink_reply (writers (snd out) a) = sink_reply (writers s a)
                     /\ (exists more,
                            sink_writes (writers (snd out) a)
                            = sink_writes (writers s a) ++ more)
                     /\ (stdout <> Some a -> stderr <> Some a ->
                         writers (snd out) a = writers s a)
                     /\ (stdout = None \/ stderr = None ->
                         writers (snd out) a = writers s a)).
  { intros ->. split; [reflexivity |]. split; [| auto].
    exists []. symmetry. apply app_nil_r. }
  revert Hsame. subst out. rewrite ExecContainer_run.
  destruct (snd (fst (ContainerExecCreate _ _ _ _ _))) as [e |];
    [intros Hsame; apply Hsame; reflexivity |].
  destruct (snd (fst (ContainerExecAttach _ _ _ _ _))) as [e |];
    [intros Hsame; apply Hsame; reflexivity |].
  cbn [snd writers].
  match goal with
  | |- context [copy_result stdout stderr ?reader (writers s)] =>
      pose proof (copy_result_grown stdout stderr reader (writers s)) as Hcopy;
      destruct (copy_result stdout stderr reader (writers s)) as [[cerr buf] h']
  end.
  cbn [snd] in *.
  destruct stdout as [o |]; [| intros Hsame; apply Hsame; exact Hcopy].
  destruct stderr as [e |]; [| intros Hsame; apply Hsame; exact Hcopy].
  intros _. destruct (Hcopy a) as (Hreply & Hmore & Hother).
  split; [exact Hreply |]. split; [exact Hmore |]. split.
  - intros Ho He. apply Hother; congruence.
  - intros [Hnone | Hnone]; discriminate.
Qed.

(** ** Streams that end inside a frame *)

(** A read loop that ends for want of bytes ends as the stream does: with
    [io.EOF], or with its error. *)
Lemma fill_tee_final (fuel : nat) :
  forall (target bufLen : Z) (buf : list byte) (s : Stream) (w : Buffer),
    target <= bufLen ->
    match fill fuel target bufLen buf (TeeReader s w) with
    | FillShort _ _ => final s = None
    | FillFailed e _ => final s = Some e
    | _ => True
    end.
Proof.
  induction fuel as [| fuel IH]; intros target bufLen buf s w Hroom;
    cbn [fill]; destruct (Z.leb_spec target (len buf)) as [Hdone | Hmore];
    try exact I.
  rewrite tee_Read.
  destruct (Stream_Read_spec (bufLen - len buf) s ltac:(lia))
    as (_ & Hfinal & Hend & Hstep).
  destruct (Read (bufLen - len buf) s) as [[bs er] s'].
  cbn [fst snd] in *.
  destruct (chunks s) as [| c cs].
  - destruct Hend as (_ & -> & _); [reflexivity |].
    unfold final_err. destruct (final s) as [e |]; [reflexivity |].
    destruct (len (buf ++ bs) <? target); [reflexivity | exact I].
  - destruct Hstep as (-> & _); [discriminate |].
    rewrite <- Hfinal. apply IH. exact Hroom.
Qed.

(** The header at the front of the buffer when bytes of a frame come
    first. *)
Lemma frame_header_at (buf rest : list byte) (f : Frame) (more : list byte) :
  buf ++ rest = encode_frame f ++ more -> 8 <= len buf ->
  len (frame_payload f) < 2 ^ 32 ->
  nth stdWriterFdIndex buf x00 = frame_stream f
  /\ BigEndian_Uint32 (firstn 4 (skipn stdWriterSizeIndex buf))
     = len (frame_payload f).
Proof.
  intros Henc Hlen Hsize.
  set (header := frame_stream f :: x00 :: x00 :: x00
                   :: PutUint32 (len (frame_payload f))).
  assert (Henc' : buf ++ rest = header ++ (frame_payload f ++ more)).
  { rewrite Henc. unfold encode_frame, header, PutUint32. cbn [app].
    rewrite <- ?app_assoc. reflexivity. }
  destruct (app_eq_prefix buf rest header _ Henc') as [Hfirst _].
  { unfold len in Hlen. cbn [header List.length PutUint32]. lia. }
  cbn [List.length header PutUint32] in Hfirst.
  assert (Hbuf : buf = header ++ skipn 8 buf).
  { rewrite <- Hfirst. symmetry. apply firstn_skipn. }
  rewrite Hbuf. unfold header, stdWriterFdIndex, stdWriterSizeIndex.
  cbn [nth app skipn firstn PutUint32].
  split; [reflexivity |].
  apply (BigEndian_PutUint32 (len (frame_payload f))).
  pose proof (len_nonneg (frame_payload f)). lia.
Qed.

(** The payload in the buffer once the frame is all there, and what
    follows it. *)
Lemma frame_payload_at (buf rest : list byte) (f : Frame) (more : list byte) :
  buf ++ rest = encode_frame f ++ more ->
  len (frame_payload f) + 8 <= len buf ->
  firstn (Z.to_nat (len (frame_payload f)))
    (skipn (Z.to_nat stdWriterPrefixLen) buf) = frame_payload f
  /\ skipn (Z.to_nat (len (frame_payload f) + stdWriterPrefixLen)) buf ++ rest
     = more.
Proof.
  intros Henc Hlen.
  destruct (app_eq_prefix buf rest (encode_frame f) _ Henc) as [Hfirst Hrest].
  { pose proof (len_encode_frame f) as Hl. unfold len in *. lia. }
  assert (Hn : List.length (encode_frame f)
               = (8 + List.length (frame_payload f))%nat).
  { pose proof (len_encode_frame f) as Hl. unfold len in Hl. lia. }
  unfold stdWriterPrefixLen, len.
  replace (Z.to_nat (Z.of_nat (List.length (frame_payload f)) + 8))
    with (List.length (encode_frame f)) by lia.
  split; [| exact Hrest].
  rewrite Nat2Z.id.
  change (Z.to_nat 8) with 8%nat.
  rewrite firstn_skipn_comm, <- Hn, Hfirst.
  unfold encode_frame. cbn [skipn PutUint32 app]. reflexivity.
Qed.

(** Eight bytes or more of the buffer show the header of what the buffer
    is the beginning of. *)
Lemma header_of_prefix (buf rest : list byte) :
  8 <= len buf ->
  nth stdWriterFdIndex (buf ++ rest) x00 = nth stdWriterFdIndex buf x00
  /\ firstn 4 (skipn stdWriterSizeIndex (buf ++ rest))
     = firstn 4 (skipn stdWriterSizeIndex buf).
Proof.
  intros Hlen. unfold len, stdWriterFdIndex, stdWriterSizeIndex in *. split.
  - apply app_nth1. lia.
  - rewrite skipn_app, firstn_app, length_skipn.
    replace (4 - List.length buf)%nat with 0%nat by lia.
    replace (4 - (List.length buf - 4))%nat with 0%nat by lia.
    cbn [skipn firstn]. apply app_nil_r.
Qed.

(** As [fill_cases], with how the stream ended in the two cases where the
    loop ends for want of bytes. *)
Ltac fill_ends s w Hfill Hend :=
  match goal with
  | |- context [fill ?fuel ?target ?bufLen ?buf ?src] =>
      assert (Hfill : fill_post target buf s w (fill fuel target bufLen buf src))
        by (apply fill_tee; [try assumption; try lia | lia]);
      assert (Hend : match fill fuel target bufLen buf src with
                     | FillShort _ _ => final s = None
                     | FillFailed e _ => final s = Some e
                     | _ => True
                     end)
        by (apply fill_tee_final; try assumption; try lia);
      revert Hfill Hend;
      destruct (fill fuel target bufLen buf src) as [? [? ?] | ? [? ?] | ? [? ?] |];
      cbn [fill_post tee_r tee_w]; intros Hfill Hend; [| | | contradiction]
  end.

Lemma len_encode_frames_nonneg (fs : list Frame) : 0 <= len (encode_frames fs).
Proof. apply len_nonneg. Qed.

(** [StdCopy] on a tee of a stream that is frames, all of which the
    writers take, and then the beginning of one more, or nothing: every
    frame is delivered, every byte is read, and the error returned is the
    one the stream ended with, none for [io.EOF]. *)
Lemma StdCopy_loop_delivers (fuel : nat) :
  forall (fs : list Frame) (tail buf : list byte) (bufLen written : Z)
         (dstout dsterr : nat) (s : Stream) (w : Buffer) (h : store),
    stdWriterPrefixLen <= bufLen ->
    (List.length buf + Stream_size s + 2 <= fuel)%nat ->
    frames_ok fs = true -> incomplete tail = true ->
    buf ++ pending s = encode_frames fs ++ tail ->
    demux_all fs dstout dsterr h = true ->
    exists n t,
      StdCopy_loop fuel buf bufLen written dstout dsterr (TeeReader s w) h
      = Some ((n, final s), (demux fs dstout dsterr h, t))
      /\ tee_w t = w ++ pending s /\ pending (tee_r t) = [].
Proof.
  induction fuel as [| fuel IH];
    intros fs tail buf bufLen written dstout dsterr s w h
      Hroom Hfuel Hok Htail Henc Hall; [lia |].
  cbn [StdCopy_loop].
  fill_ends s w Hhead Hend1.
  - (* a header is in the buffer *)
    destruct Hhead as (d1 & -> & -> & Hp1 & Hf1 & Hlen1 & Hs1).
    rename tee_r0 into s1.
    assert (Hdata : (buf ++ d1) ++ pending s1 = encode_frames fs ++ tail).
    { rewrite <- app_assoc, <- Hp1. exact Henc. }
    set (stream := byte_val (nth stdWriterFdIndex (buf ++ d1) x00)).
    set (frameSize :=
           BigEndian_Uint32 (firstn 4 (skipn stdWriterSizeIndex (buf ++ d1)))).
    set (bufLen1 := if bufLen <? frameSize + stdWriterPrefixLen
                    then bufLen + (frameSize + stdWriterPrefixLen - bufLen + 1)
                    else bufLen).
    assert (Hsize : 0 <= frameSize) by apply BigEndian_Uint32_nonneg.
    assert (Hroom1 : frameSize + stdWriterPrefixLen <= bufLen1).
    { subst bufLen1.
      destruct (Z.ltb_spec bufLen (frameSize + stdWriterPrefixLen)); lia. }
    destruct fs as [| f fs'].
    + (* no frame is left: the bytes are the beginning of one *)
      cbn [encode_frames map List.concat app] in Hdata.
      destruct (header_of_prefix (buf ++ d1) (pending s1) Hlen1)
        as [Hbyte Hfield].
      rewrite Hdata in Hbyte, Hfield.
      unfold incomplete in Htail. rewrite Hbyte, Hfield in Htail.
      fold stream frameSize in Htail.
      assert (Hlong : stdWriterPrefixLen <= len tail).
      { rewrite <- Hdata, len_app. pose proof (len_nonneg (pending s1)). lia. }
      destruct (Z.ltb_spec (len tail) stdWriterPrefixLen); [lia |].
      cbn [orb] in Htail. apply andb_true_iff in Htail as [Hknown Hcut].
      apply Z.leb_le in Hknown. apply Z.ltb_lt in Hcut.
      destruct (Z.ltb_spec Systemerr stream); [lia |].
      fill_ends s1 (w ++ d1) Hbody Hend2.
      * exfalso. destruct Hbody as (d2 & -> & _ & Hp2 & _ & Hlen2 & _).
        rewrite Hp2, app_assoc in Hdata. rewrite <- Hdata, len_app in Hcut.
        pose proof (len_nonneg (pending tee_r0)). lia.
      * destruct Hbody as (-> & -> & Hp2 & _).
        eexists; eexists. split; [rewrite <- Hf1, Hend2; reflexivity |].
        cbn [tee_r tee_w demux]. split; [| exact Hp2].
        rewrite Hp1, app_assoc. reflexivity.
      * destruct Hbody as (-> & Hp2 & _).
        eexists; eexists. split; [rewrite <- Hf1, Hend2; reflexivity |].
        cbn [tee_r tee_w demux]. split; [| exact Hp2].
        rewrite Hp1, app_assoc. reflexivity.
    + (* a frame is next *)
      cbn [frames_ok forallb] in Hok.
      apply andb_true_iff in Hok as [Hfit Hok'].
      apply Z.ltb_lt in Hfit.
      assert (Hdata' : (buf ++ d1) ++ pending s1
                       = encode_frame f ++ (encode_frames fs' ++ tail)).
      { rewrite Hdata. unfold encode_frames. cbn [map List.concat].
        rewrite <- app_assoc. reflexivity. }
      destruct (frame_header_at _ _ _ _ Hdata' Hlen1 Hfit) as [Hst Hsz].
      assert (Hstream : stream = byte_val (frame_stream f))
        by (subst stream; rewrite Hst; reflexivity).
      assert (HframeSize : frameSize = len (frame_payload f))
        by (subst frameSize; exact Hsz).
      cbn [demux demux_all] in Hall |- *. rewrite <- Hstream in Hall |- *.
      destruct (Z.leb_spec Systemerr stream) as [| Hknown];
        [discriminate |].
      destruct (Z.ltb_spec Systemerr stream); [lia |].
      assert (Hwhole : len (frame_payload f) + 8
                       <= len ((buf ++ d1) ++ pending s1)).
      { rewrite Hdata', len_app, len_encode_frame.
        pose proof (len_nonneg (encode_frames fs' ++ tail)). lia. }
      fill_ends s1 (w ++ d1) Hbody Hend2.
      * destruct Hbody as (d2 & -> & -> & Hp2 & Hf2 & Hlen2 & Hs2).
        rename tee_r0 into s2.
        assert (Hdata2 : ((buf ++ d1) ++ d2) ++ pending s2
                         = encode_frame f ++ (encode_frames fs' ++ tail)).
        { rewrite <- Hdata', Hp2, !app_assoc. reflexivity. }
        destruct (frame_payload_at _ _ _ _ Hdata2) as [Hpay Hnext].
        { rewrite <- HframeSize. exact Hlen2. }
        rewrite HframeSize, Hpay, Hnext || rewrite HframeSize, Hpay.
        destruct (Z.eqb_spec stream Systemerr); [lia |].
        destruct (store_Write (frame_payload f)
                    (if stream =? Stderr then dsterr else dstout) h)
          as [[nw ew] h1].
        destruct ew as [e |]; [discriminate |].
        destruct (Z.eqb_spec nw (len (frame_payload f))) as [-> | ];
          [| discriminate].
        destruct (IH fs' tail
                    (skipn (Z.to_nat (len (frame_payload f) + stdWriterPrefixLen))
                       ((buf ++ d1) ++ d2))
                    bufLen1 (wrap64 (written + len (frame_payload f)))
                    dstout dsterr s2 ((w ++ d1) ++ d2) h1)
          as (cnt & tfin & Hrun & Hw & Hp); auto; [lia | |].
        { rewrite length_skipn.
          unfold len, stdWriterPrefixLen in *. rewrite !length_app in *. lia. }
        exists cnt, tfin.
        rewrite Hrun, Hw, Hp1, Hp2, Hf2, Hf1, !app_assoc. auto.
      * exfalso. destruct Hbody as (-> & _ & _ & Hshort).
        unfold stdWriterPrefixLen in *. lia.
      * exfalso. destruct Hbody as (_ & _ & Hshort).
        unfold stdWriterPrefixLen in *. lia.
  - (* the stream ends before a header is complete *)
    destruct Hhead as (-> & -> & Hp & Hshort).
    destruct fs as [| f fs'].
    + eexists; eexists. rewrite Hend1. cbn [demux tee_r tee_w]. auto.
    + exfalso. rewrite Henc, len_app, len_encode_frames_cons in Hshort.
      pose proof (len_nonneg (encode_frames fs')).
      pose proof (len_nonneg (frame_payload f)). pose proof (len_nonneg tail).
      unfold stdWriterPrefixLen in *. lia.
  - (* the stream fails before a header is complete *)
    destruct Hhead as (-> & Hp & Hshort).
    destruct fs as [| f fs'].
    + eexists; eexists. rewrite Hend1. cbn [demux tee_r tee_w]. auto.
    + exfalso. rewrite Henc, len_app, len_encode_frames_cons in Hshort.
      pose proof (len_nonneg (encode_frames fs')).
      pose proof (len_nonneg (frame_payload f)). pose proof (len_nonneg tail).
      unfold stdWriterPrefixLen in *. lia.
Qed.

Lemma incomplete_nil : incomplete [] = true.
Proof. reflexivity. Qed.

(** The copy step on such a stream, with both writers given. *)
Lemma copy_result_delivers (o e : nat) (reader : Stream) (h : store)
  (fs : list Frame) (tail : list byte) :
  frames_ok fs = true -> incomplete tail = true ->
  pending reader = encode_frames fs ++ tail ->
  demux_all fs o e h = true ->
  copy_result (Some o) (Some e) reader h
  = (final reader, pending reader, demux fs o e h).
Proof.
  intros Hok Htail Henc Hall.
  unfold copy_result, StdCopy_tee, StdCopy. cbn [tee_r].
  destruct (StdCopy_loop_delivers (StdCopy_fuel reader) fs tail []
              startingBufLen 0 o e reader [] h)
    as (n & t & Hrun & Hw & Hp); auto.
  - unfold startingBufLen, stdWriterPrefixLen. lia.
  - unfold StdCopy_fuel. cbn [List.length]. lia.
  - match goal with
    | |- context [match ?r with Some _ => _ | None => _ end] =>
        replace r with (Some (n, final reader, (demux fs o e h, t)))
    end.
    cbn [app] in Hw. rewrite Hw. reflexivity.
Qed.

(** X11. With both writers given and a stream that stops inside a frame:
    the frames before it are delivered, the bytes of the cut frame reach no
    writer and are in the transcript, and the copy raises an error only if
    the stream ended with one: after [io.EOF] nothing is logged, and the
    result is the one of the inspection. *)
Theorem ExecContainer_stream_cut_short {W : Type} (ds : DockerService W)
  (id cmd : string) (timeout : Z) (o e : nat)
  (env : list string) (privileged : bool) (s : St W)
  (fs : list Frame) (tail : list byte) :
  let ctx := WithTimeout Background (Duration_seconds timeout) in
  let options :=
    {| AttachStdout := true; AttachStderr := true; Cmd := ["sh"; "-c"; cmd];
       exec_Env := env; Privileged := privileged |} in
  let create := ContainerExecCreate (client ds) ctx id options (world s) in
  let execID := exec_ID (fst (fst create)) in
  let attach :=
    ContainerExecAttach (client ds) ctx execID mkExecStartOptions (snd create) in
  let inspect := ContainerExecInspect (client ds) ctx execID (snd attach) in
  let reader := hijack_Reader (fst (fst attach)) in
  let out :=
    ExecContainer ds id cmd timeout (Some o) (Some e) env privileged s in
  snd (fst create) = None -> snd (fst attach) = None ->
  frames_ok fs = true -> incomplete tail = true ->
  pending reader = encode_frames fs ++ tail ->
  demux_all fs o e (writers s) = true ->
  writers (snd out) = demux fs o e (writers s)
  /\ errors_logged (logs (snd out))
     = errors_logged (logs s)
       ++ failure "container exec copy error" (final reader)
       ++ failure "container exec inspect error" (snd (fst inspect))
  /\ (snd (fst inspect) = None ->
      fst out = (ExitCode (fst (fst inspect)),
                 Buffer_String (encode_frames fs ++ tail), None)).
Proof.
  intros ctx options create execID attach inspect reader out
    Hc Ha Hok Htail Henc Hall.
  subst out. rewrite ExecContainer_run.
  fold ctx options create execID attach inspect. rewrite Hc, Ha.
  fold reader. rewrite (copy_result_delivers o e reader (writers s) fs tail)
    by assumption.
  cbn [fst snd logs writers]. split; [reflexivity |]. split.
  - rewrite !errors_logged_app.
    destruct (final reader), (snd (fst inspect)); cbn;
      rewrite ?app_nil_r; reflexivity.
  - intros Hi. rewrite Hi, Henc. reflexivity.
Qed.

Lemma ExecContainer_stream_cut_short_witness :
  let out :=
    ExecContainer (Sim.service Sim.cut) "id-box" "echo hello; echo oops >&2"
      5 (Some 0%nat) (Some 1%nat) [] false (Sim.init Sim.up) in
  sink_writes (writers (snd out) 0%nat) = [Sim.hello]
  /\ sink_writes (writers (snd out) 1%nat) = []
  /\ errors_logged (logs (snd out)) = []
  /\ snd (fst out) = None.
Proof.
  destruct (ExecContainer_stream_cut_short (Sim.service Sim.cut) "id-box"
              "echo hello; echo oops >&2" 5 0%nat 1%nat [] false
              (Sim.init Sim.up) (firstn 1 Sim.frames)
              (firstn 10 (encode_frames (skipn 1 Sim.frames))))
    as (Hwriters & Hlogs & Hres); try reflexivity.
  cbv zeta. rewrite Hwriters, Hlogs, Hres by reflexivity.
  repeat split; reflexivity.
Defined.

(** ** The transcript *)

Lemma length_string_of_list_byte (l : list byte) :
  String.length (string_of_list_byte l) = List.length l.
Proof.
  unfold string_of_list_byte.
  induction l as [| b l IH]; cbn; [reflexivity | rewrite IH; reflexivity].
Qed.

Lemma len_encode_frames (fs : list Frame) :
  len (encode_frames fs) = payload_bytes fs + 8 * len fs.
Proof.
  induction fs as [| f fs IH]; [reflexivity |].
  rewrite len_encode_frames_cons, IH.
  change (payload_bytes (f :: fs))
    with (len (frame_payload f) + payload_bytes fs).
  change (len (f :: fs)) with (Z.of_nat (S (List.length fs))).
  unfold len. lia.
Qed.

(** X12. The transcript of a session whose output is frames is the raw
    stream, each payload behind its header of eight bytes, whether the
    output went through the two writers (and they took it all) or straight
    to the buffer: its length is that of the payloads and eight bytes a
    frame. *)
Theorem ExecContainer_transcript_is_raw {W : Type} (ds : DockerService W)
  (id cmd : string) (timeout : Z) (stdout stderr : option nat)
  (env : list string) (privileged : bool) (s : St W) (fs : list Frame) :
  let ctx := WithTimeout Background (Duration_seconds timeout) in
  let options :=
    {| AttachStdout := true; AttachStderr := true; Cmd := ["sh"; "-c"; cmd];
       exec_Env := env; Privileged := privileged |} in
  let create := ContainerExecCreate (client ds) ctx id options (world s) in
  let execID := exec_ID (fst (fst create)) in
  let attach :=
    ContainerExecAttach (client ds) ctx execID mkExecStartOptions (snd create) in
  let inspect := ContainerExecInspect (client ds) ctx execID (snd attach) in
  let reader := hijack_Reader (fst (fst attach)) in
  let out := ExecContainer ds id cmd timeout stdout stderr env privileged s in
  snd (fst create) = None -> snd (fst attach) = None ->
  snd (fst inspect) = None ->
  frames_ok fs = true -> pending reader = encode_frames fs ->
  (forall o e, stdout = Some o -> stderr = Some e ->
               demux_all fs o e (writers s) = true) ->
  snd (fst (fst out)) = Buffer_String (encode_frames fs)
  /\ Z.of_nat (String.length (snd (fst (fst out))))
     = payload_bytes fs + 8 * len fs.
Proof.
  intros ctx options create execID attach inspect reader out
    Hc Ha Hi Hok Henc Hall.
  assert (Htranscript : snd (fst (fst out)) = Buffer_String (encode_frames fs)).
  { subst out. rewrite ExecContainer_run.
    fold ctx options create execID attach inspect. rewrite Hc, Ha, Hi.
    fold reader. cbn [fst snd]. f_equal.
    destruct stdout as [o |], stderr as [e |];
      try (unfold copy_result; cbn [fst snd]; exact Henc).
    rewrite (copy_result_delivers o e reader (writers s) fs []);
      auto using incomplete_nil.
    rewrite app_nil_r. exact Henc. }
  split; [exact Htranscript |].
  rewrite Htranscript. unfold Buffer_String.
  rewrite length_string_of_list_byte. apply len_encode_frames.
Qed.

Lemma ExecContainer_transcript_is_raw_witness :
  Z.of_nat
    (String.length
       (snd (fst (fst (ExecContainer (Sim.service Sim.script) "id-box"
                         "echo hello; echo oops >&2" 5 None None [] false
                         (Sim.init Sim.up))))))
  = 25.
Proof.
  destruct (ExecContainer_transcript_is_raw (Sim.service Sim.script) "id-box"
              "echo hello; echo oops >&2" 5 None None [] false
              (Sim.init Sim.up) Sim.frames) as [_ Hlength];
    [ reflexivity | reflexivity | reflexivity | reflexivity | reflexivity
    | intros o e Hnone; discriminate
    | exact Hlength ].
Defined.
